(** * StatementSnap: batch orchestration, summary aggregation and CSV export

    A shallow embedding of the computational parts of [App.tsx]
    ([summary], [processStatements], [exportToCSV]), of
    [services/geminiService.ts] ([extractTransactions]) and of [types.ts].

    Modelling conventions.
    - The orchestrator, the export and the identifiers do no arithmetic on
      amounts; there a JavaScript [number] is carried as a rational ([Q]).
    - The summary is embedded twice.  [summary] reads numbers as exact
      rationals and [categoryMap] as the ordered list of its own
      properties; it carries the statements that depend neither on
      rounding nor on inherited properties (signs, colours).
      [Js.summary] computes on IEEE 754 binary64 values ([SpecFloat],
      round to nearest, ties to even) and gives the object literal its
      prototype: reading a label that names a member of
      [Object.prototype] finds that member, and assigning to [__proto__]
      goes to the inherited setter.  The statements about sums, values,
      percentages, order and names are made on [Js.summary]; equalities
      between the numbers doubles stand for are stated with [==] on [Q].
    - Own properties are kept in the order [Object.entries] enumerates
      them: array-index keys first, ascending, then the other keys in
      creation order.
    - [Array.prototype.sort] is stable; with the comparator
      [(a, b) => b.value - a.value] it is modelled as the stable insertion
      sort that puts [y] before [x] when the comparator is positive.
    - The Gemini call and [Date.now()] are inputs of the model (record
      [Env]); React state setters are recorded as a log of effects that is
      folded over the component state. *)

From Stdlib Require Import QArith Qabs List String Ascii Arith Lia Bool.
From Stdlib Require Import Permutation Sorted NArith DecimalString DecimalN.
From Stdlib Require Import SpecFloat.
Import ListNotations.

Local Open Scope string_scope.
Local Open Scope Q_scope.

(** ** types.ts *)

Module Transaction.
Record t : Type := mk {
  id : string;
  date : string;
  description : string;
  amount : Q;
  category : string;
  notes : string;
  sourceFile : string
}.
End Transaction.

Module FileData.
Record t : Type := mk {
  name : string;
  base64 : string;
  type : string
}.
End FileData.

Inductive ProcessingStatus : Type :=
  | IDLE
  | UPLOADING
  | ANALYZING
  | SUCCESS
  | ERROR.

(** ** Numbers *)

(** [a < b] on numbers, as a boolean. *)
Definition Qltb (a b : Q) : bool := negb (Qle_bool b a).

(** ** Plain objects used as string-keyed maps *)

Module JsObject.

Definition digit_of_ascii (c : ascii) : option N :=
  let n := N_of_ascii c in
  if ((48 <=? n) && (n <=? 57))%N then Some (n - 48)%N else None.

Fixpoint parse_digits (s : string) (acc : N) : option N :=
  match s with
  | EmptyString => Some acc
  | String c r =>
      match digit_of_ascii c with
      | Some d => parse_digits r (10 * acc + d)%N
      | None => None
      end
  end.

(** A property key is an array index when it is the canonical decimal
    numeral of an integer below [2^32 - 1]. *)
Definition array_index (k : string) : option N :=
  match k with
  | EmptyString => None
  | String c r =>
      if (N_of_ascii c =? 48)%N then
        match r with EmptyString => Some 0%N | _ => None end
      else
        match parse_digits k 0 with
        | Some n => if (n <? 4294967295)%N then Some n else None
        | None => None
        end
  end.

Section Props.
Context {V : Type}.

(** Own properties, in enumeration order. *)
Definition t : Type := list (string * V).

Definition empty : t := [].

Fixpoint get (k : string) (o : t) : option V :=
  match o with
  | [] => None
  | (k', v) :: r => if String.eqb k k' then Some v else get k r
  end.

Definition has (k : string) (o : t) : bool :=
  match get k o with Some _ => true | None => false end.

Fixpoint replace (k : string) (v : V) (o : t) : t :=
  match o with
  | [] => []
  | (k', v') :: r =>
      if String.eqb k k' then (k', v) :: r else (k', v') :: replace k v r
  end.

(** A new array-index key goes after the smaller array-index keys. *)
Fixpoint insert_index (n : N) (k : string) (v : V) (o : t) : t :=
  match o with
  | [] => [(k, v)]
  | (k', v') :: r =>
      match array_index k' with
      | Some n' =>
          if (n' <? n)%N then (k', v') :: insert_index n k v r
          else (k, v) :: o
      | None => (k, v) :: o
      end
  end.

Definition create (k : string) (v : V) (o : t) : t :=
  match array_index k with
  | Some n => insert_index n k v o
  | None => (o ++ [(k, v)])%list
  end.

(** [o[k] = v] *)
Definition set (k : string) (v : V) (o : t) : t :=
  if has k o then replace k v o else create k v o.

(** [Object.entries(o)] *)
Definition entries (o : t) : list (string * V) := o.

Definition keys (o : t) : list string := map fst o.
End Props.

Arguments t : clear implicits.
End JsObject.

(** ** App.tsx: the summary *)

Definition COLORS : list string :=
  [ "#4f46e5"; "#f43f5e"; "#10b981"; "#f59e0b";
    "#06b6d4"; "#8b5cf6"; "#ec4899"; "#64748b" ].

Module CategoryDatum.
Record t : Type := mk {
  name : string;
  value : Q;
  percentage : Q;
  color : string
}.
End CategoryDatum.

Module Summary.
Record t : Type := mk {
  count : nat;
  income : Q;
  expenses : Q;
  net : Q;
  categoryData : list CategoryDatum.t
}.
End Summary.

(** [xs.reduce((acc, t) => acc + t.amount, 0)] *)
Definition sum_amounts (xs : list Transaction.t) : Q :=
  fold_left (fun acc t => acc + Transaction.amount t) xs 0.

Definition is_income (t : Transaction.t) : bool := Qltb 0 (Transaction.amount t).
Definition is_expense (t : Transaction.t) : bool := Qltb (Transaction.amount t) 0.

(** [categoryMap[k] || 0] *)
Definition or_zero (o : option Q) : Q :=
  match o with
  | Some v => if Qeq_bool v 0 then 0 else v
  | None => 0
  end.

(** The body of the [forEach] callback. *)
Definition add_to_category (m : JsObject.t Q) (t : Transaction.t) : JsObject.t Q :=
  if is_expense t then
    let absAmount := Qabs (Transaction.amount t) in
    JsObject.set (Transaction.category t)
      (or_zero (JsObject.get (Transaction.category t) m) + absAmount) m
  else m.

Definition categoryMap (currentTransactions : list Transaction.t) : JsObject.t Q :=
  fold_left add_to_category currentTransactions JsObject.empty.

(** [xs.map((x, index) => f(x, index))], counting from [i]. *)
Fixpoint mapi_from {A B : Type} (i : nat) (f : A -> nat -> B) (xs : list A) : list B :=
  match xs with
  | [] => []
  | x :: r => f x i :: mapi_from (S i) f r
  end.

Definition mapi {A B : Type} (f : A -> nat -> B) (xs : list A) : list B :=
  mapi_from 0 f xs.

(** [COLORS[index % COLORS.length]] *)
Definition palette (index : nat) : string :=
  nth (Nat.modulo index (List.length COLORS)) COLORS "undefined".

Definition to_datum (totalExpenseAbs : Q) (e : string * Q) (index : nat)
  : CategoryDatum.t :=
  let (name, value) := e in
  CategoryDatum.mk name value
    (if Qltb 0 totalExpenseAbs then (value / totalExpenseAbs) * 100 else 0)
    (palette index).

(** [sort((a, b) => b.value - a.value)]: [x] goes after the entries of
    strictly larger value and before all the others. *)
Fixpoint insert_desc (x : CategoryDatum.t) (l : list CategoryDatum.t)
  : list CategoryDatum.t :=
  match l with
  | [] => [x]
  | y :: r =>
      if Qltb (CategoryDatum.value x) (CategoryDatum.value y)
      then y :: insert_desc x r
      else x :: l
  end.

Definition sort_by_value_desc (l : list CategoryDatum.t) : list CategoryDatum.t :=
  fold_right insert_desc [] l.

(** The list handed to [sort]. *)
Definition unsorted_categoryData (currentTransactions : list Transaction.t)
  : list CategoryDatum.t :=
  let expenses := sum_amounts (filter is_expense currentTransactions) in
  let totalExpenseAbs := Qabs expenses in
  mapi (to_datum totalExpenseAbs)
       (JsObject.entries (categoryMap currentTransactions)).

Definition summary (currentTransactions : list Transaction.t) : Summary.t :=
  let income := sum_amounts (filter is_income currentTransactions) in
  let expenses := sum_amounts (filter is_expense currentTransactions) in
  let totalExpenseAbs := Qabs expenses in
  let categoryData :=
    sort_by_value_desc (unsorted_categoryData currentTransactions) in
  Summary.mk (List.length currentTransactions)
             income totalExpenseAbs (income + expenses) categoryData.

(** [currentTransactions] for a selected view. *)
Definition currentTransactions (transactions : list Transaction.t)
    (selectedView : string) : list Transaction.t :=
  if String.eqb selectedView "all" then transactions
  else filter (fun t => String.eqb (Transaction.sourceFile t) selectedView)
              transactions.

(** ** services/geminiService.ts *)

Module JsError.
(** A thrown value; [message] is [None] when the property is missing. *)
Record t : Type := mk { message : option string }.
End JsError.

Module RawTransaction.
(** An item of [parsed.transactions], as the response schema shapes it.
    [notes] is optional there; a missing one is the empty string here,
    which is what [exportToCSV] turns it into. *)
Record t : Type := mk {
  date : string;
  description : string;
  amount : Q;
  category : string;
  notes : string
}.
End RawTransaction.

(** What [ai.models.generateContent] followed by [JSON.parse] amounts to:
    an exception, or the parsed array ([parsed.transactions || []]). *)
Inductive GeminiReply : Type :=
  | Throws (e : JsError.t)
  | Returns (items : list RawTransaction.t).

(** The world outside the component: the reply to the [call]-th use of
    [extractTransactions] of a run, and the value [Date.now()] yields when
    the item at position [index] of that reply is stamped. *)
Record Env : Type := mkEnv {
  generateContent : nat -> list FileData.t -> GeminiReply;
  Date_now : nat -> nat -> N
}.

Definition string_of_N (n : N) : string :=
  NilEmpty.string_of_uint (N.to_uint n).

(** [`${Date.now()}-${index}`] *)
Definition make_id (now : N) (index : nat) : string :=
  string_of_N now ++ "-" ++ string_of_N (N.of_nat index).

(** The [map] callback: [{ ...t, id }].  The [sourceFile] property does not
    exist yet; it is written by [processStatements] before anything reads
    it. *)
Definition stamp (env : Env) (call : nat) (t : RawTransaction.t) (index : nat)
  : Transaction.t :=
  Transaction.mk (make_id (Date_now env call index) index)
                 (RawTransaction.date t) (RawTransaction.description t)
                 (RawTransaction.amount t) (RawTransaction.category t)
                 (RawTransaction.notes t) "".

Definition extractTransactions (env : Env) (call : nat) (files : list FileData.t)
  : JsError.t + list Transaction.t :=
  match generateContent env call files with
  | Throws e => inl e
  | Returns items => inr (mapi (stamp env call) items)
  end.

(** ** App.tsx: the batch orchestrator *)

Record AppState : Type := mkAppState {
  files : list FileData.t;
  transactions : list Transaction.t;
  status : ProcessingStatus;
  error : option string;
  selectedView : string;
  processedCount : nat;
  currentlyProcessingIdx : option nat
}.

Definition initial_state : AppState :=
  mkAppState [] [] IDLE None "all" 0 None.

(** Calls of the state setters. *)
Inductive Effect : Type :=
  | setFiles (fs : list FileData.t)
  | setTransactions (ts : list Transaction.t)
  | setStatus (s : ProcessingStatus)
  | setError (e : option string)
  | setSelectedView (v : string)
  | setProcessedCount (n : nat)
  | setCurrentlyProcessingIdx (i : option nat).

Definition apply_effect (s : AppState) (e : Effect) : AppState :=
  match e with
  | setFiles fs =>
      mkAppState fs (transactions s) (status s) (error s) (selectedView s)
                 (processedCount s) (currentlyProcessingIdx s)
  | setTransactions ts =>
      mkAppState (files s) ts (status s) (error s) (selectedView s)
                 (processedCount s) (currentlyProcessingIdx s)
  | setStatus st =>
      mkAppState (files s) (transactions s) st (error s) (selectedView s)
                 (processedCount s) (currentlyProcessingIdx s)
  | setError er =>
      mkAppState (files s) (transactions s) (status s) er (selectedView s)
                 (processedCount s) (currentlyProcessingIdx s)
  | setSelectedView v =>
      mkAppState (files s) (transactions s) (status s) (error s) v
                 (processedCount s) (currentlyProcessingIdx s)
  | setProcessedCount n =>
      mkAppState (files s) (transactions s) (status s) (error s)
                 (selectedView s) n (currentlyProcessingIdx s)
  | setCurrentlyProcessingIdx i =>
      mkAppState (files s) (transactions s) (status s) (error s)
                 (selectedView s) (processedCount s) i
  end.

Definition run_effects (log : list Effect) (s : AppState) : AppState :=
  fold_left apply_effect log s.

(** [{ ...t, sourceFile: name }] *)
Definition with_sourceFile (name : string) (t : Transaction.t) : Transaction.t :=
  Transaction.mk (Transaction.id t) (Transaction.date t)
                 (Transaction.description t) (Transaction.amount t)
                 (Transaction.category t) (Transaction.notes t) name.

(** The [for] loop from index [i] on, over the files still to do, with
    [allExtractedTransactions] as accumulated so far.  It yields the setter
    calls made and either the exception that left the loop or the final
    accumulator. *)
Fixpoint process_loop (env : Env) (todo : list FileData.t) (i : nat)
    (allExtractedTransactions : list Transaction.t)
  : list Effect * (JsError.t + list Transaction.t) :=
  match todo with
  | [] => ([], inr allExtractedTransactions)
  | f :: rest =>
      match extractTransactions env i [f] with
      | inl err => ([setCurrentlyProcessingIdx (Some i)], inl err)
      | inr result =>
          let taggedResults := map (with_sourceFile (FileData.name f)) result in
          let (log, outcome) :=
            process_loop env rest (S i)
                         (allExtractedTransactions ++ taggedResults)%list in
          (setCurrentlyProcessingIdx (Some i) :: setProcessedCount (i + 1) :: log,
           outcome)
      end
  end.

(** The fallback text of the [catch] block; one revision of the component
    words it differently, nothing depends on the wording. *)
Definition default_error_message : string :=
  "Failed to extract data. Please ensure the files are valid PDFs or images.".

(** [err.message || default] *)
Definition message_or_default (err : JsError.t) : string :=
  match JsError.message err with
  | Some EmptyString => default_error_message
  | Some m => m
  | None => default_error_message
  end.

(** The setter calls of one run of [processStatements], in order. *)
Definition processStatements_effects (env : Env) (fs : list FileData.t)
  : list Effect :=
  match fs with
  | [] => []
  | _ :: _ =>
      let (log, outcome) := process_loop env fs 0 [] in
      ([setStatus ANALYZING; setError None; setProcessedCount 0;
        setTransactions []]
       ++ log
       ++ match outcome with
          | inr allExtractedTransactions =>
              [setTransactions allExtractedTransactions; setStatus SUCCESS;
               setCurrentlyProcessingIdx None; setSelectedView "all"]
          | inl err =>
              [setError (Some (message_or_default err)); setStatus ERROR;
               setCurrentlyProcessingIdx None]
          end)%list
  end.

Definition processStatements (env : Env) (s : AppState) : AppState :=
  run_effects (processStatements_effects env (files s)) s.

Definition reset (s : AppState) : AppState :=
  run_effects [setFiles []; setTransactions []; setStatus IDLE; setError None;
               setProcessedCount 0; setCurrentlyProcessingIdx None;
               setSelectedView "all"] s.

(** A setter call that surfaces a failure. *)
Definition is_error_message (e : Effect) : bool :=
  match e with setError (Some _) => true | _ => false end.

Definition is_error_status (e : Effect) : bool :=
  match e with setStatus ERROR => true | _ => false end.

(** A setter call that shows a non-empty transaction list. *)
Definition exposes_transactions (e : Effect) : bool :=
  match e with setTransactions (_ :: _) => true | _ => false end.

(** ** App.tsx: CSV export *)

Definition dquote : string := String (ascii_of_nat 34) EmptyString.
Definition newline : string := String (ascii_of_nat 10) EmptyString.

(** The [replace] call of [exportToCSV]: every double quote of [s] becomes
    two. *)
Fixpoint double_quotes (s : string) : string :=
  match s with
  | EmptyString => EmptyString
  | String c r =>
      if Ascii.eqb c (ascii_of_nat 34)
      then String c (String c (double_quotes r))
      else String c (double_quotes r)
  end.

Definition quoted (s : string) : string := dquote ++ s ++ dquote.

(** [s || ''] *)
Definition or_empty (s : string) : string :=
  match s with EmptyString => "" | _ => s end.


Definition headers : list string :=
  ["Date"; "Description"; "Amount"; "Category"; "Notes"; "Source"].

Section CsvExport.
(** [Number.prototype.toString], applied when [join] renders the amount. *)
Variable Number_toString : Q -> string.

Definition csv_fields (t : Transaction.t) : list string :=
  [ Transaction.date t;
    quoted (double_quotes (Transaction.description t));
    Number_toString (Transaction.amount t);
    Transaction.category t;
    quoted (double_quotes (or_empty (Transaction.notes t)));
    quoted (Transaction.sourceFile t) ].

Definition csv_row (t : Transaction.t) : string :=
  String.concat "," (csv_fields t).

Definition csv_lines (ts : list Transaction.t) : list string :=
  String.concat "," headers :: map csv_row ts.

(** The text handed to the [Blob], or [None] when the function returns at
    its first line. *)
Definition exportToCSV (ts : list Transaction.t) : option string :=
  match ts with
  | [] => None
  | _ :: _ => Some (String.concat newline (csv_lines ts))
  end.
End CsvExport.



(** ** Reference notions used in the statements *)

(** The arithmetic sum of a list of numbers. *)
Definition total (qs : list Q) : Q := fold_right Qplus 0 qs.

(** The numbers stored in an object. *)
Definition values (o : JsObject.t Q) : list Q := map snd o.

(** Colours assigned along the sorted output: the entry at position [i] of
    [categoryData] carries [COLORS[i % 8]]. *)
Definition colors_cycle_in_output_order (ts : list Transaction.t) : Prop :=
  forall i e,
    nth_error (Summary.categoryData (summary ts)) i = Some e ->
    CategoryDatum.color e = palette i.

(** Sample inputs. *)
Definition sample (a : Q) (c : string) : Transaction.t :=
  Transaction.mk "" "2024-01-05" "" a c "" "a.pdf".

Definition scenario_food_travel : list Transaction.t :=
  [ sample 100 "Salary"; sample (-40) "Food"; sample (-10) "Food";
    sample (-20) "Travel" ].

Definition scenario_small_first : list Transaction.t :=
  [ sample (-10) "A"; sample (-20) "B" ].

(** The records of the document at position [i], tagged with its name;
    empty when its extraction throws. *)
Definition tagged_records (env : Env) (f : FileData.t) (i : nat)
  : list Transaction.t :=
  match extractTransactions env i [f] with
  | inr result => map (with_sourceFile (FileData.name f)) result
  | inl _ => []
  end.

(** [t] is the record [r] with [name] as its source: every other field is
    the one the extraction returned. *)
Definition tagged_copy (name : string) (r t : Transaction.t) : Prop :=
  Transaction.id t = Transaction.id r
  /\ Transaction.date t = Transaction.date r
  /\ Transaction.description t = Transaction.description r
  /\ Transaction.amount t = Transaction.amount r
  /\ Transaction.category t = Transaction.category r
  /\ Transaction.notes t = Transaction.notes r
  /\ Transaction.sourceFile t = name.

(** The per-document results, one after the other in submission order,
    for documents numbered from [i]. *)
Definition consolidated_from (env : Env) (i : nat) (fs : list FileData.t)
  : list Transaction.t :=
  List.concat (mapi_from i (tagged_records env) fs).

Definition consolidated (env : Env) (fs : list FileData.t) : list Transaction.t :=
  consolidated_from env 0 fs.

(** The extraction of the document at position [i] returns. *)
Definition succeeds (env : Env) (i : nat) (f : FileData.t) : Prop :=
  exists result, extractTransactions env i [f] = inr result.

Definition all_succeed (env : Env) (fs : list FileData.t) : Prop :=
  forall i f, nth_error fs i = Some f -> succeeds env i f.

(** The setter calls of [n] successful iterations starting at index [i]. *)
Fixpoint progress_log (i n : nat) : list Effect :=
  match n with
  | O => []
  | S n' =>
      setCurrentlyProcessingIdx (Some i) :: setProcessedCount (i + 1)
        :: progress_log (S i) n'
  end.

(** No clock reading taken while stamping one document is also taken while
    stamping another of the first [n]. *)
Definition clock_separates_documents (env : Env) (n : nat) : Prop :=
  forall i i' j j', (i < i' < n)%nat -> Date_now env i j <> Date_now env i' j'.

(** Whether the separator of [make_id] occurs in a string. *)
Fixpoint has_dash (s : string) : bool :=
  match s with
  | EmptyString => false
  | String c r => Ascii.eqb c "-"%char || has_dash r
  end.

(** The identifiers of the list a run leaves in the state are pairwise
    distinct. *)
Definition batch_ids_distinct (env : Env) (s : AppState) : Prop :=
  NoDup (map Transaction.id (transactions (processStatements env s))).



(** Sample documents and worlds. *)
Definition doc (name : string) : FileData.t :=
  FileData.mk name "JVBERi0=" "application/pdf".

Definition raw (a : Q) (c : string) : RawTransaction.t :=
  RawTransaction.mk "2024-01-05" "Coffee" a c "".

(** The first call returns two records, the second three, any further one
    throws; the clock advances by a second from one call to the next. *)
Definition env_two_three : Env :=
  mkEnv (fun call _ =>
           match call with
           | 0%nat => Returns [raw (-4.5) "Dining"; raw 100 "Salary"]
           | 1%nat => Returns [raw (-1) "Fees"; raw (-2) "Fees"; raw 3 "Refund"]
           | _ => Throws (JsError.mk (Some "quota exceeded"))
           end)
        (fun call _ => (1700000000000 + 1000 * N.of_nat call)%N).

(** Every call returns one record and the clock stands still. *)
Definition env_frozen_clock : Env :=
  mkEnv (fun _ _ => Returns [raw (-1) "Fees"]) (fun _ _ => 1700000000000%N).

Definition queue (names : list string) : AppState :=
  mkAppState (map doc names) [] IDLE None "all" 0 None.

(** The transaction of the export scenario. *)
Definition coffee : Transaction.t :=
  Transaction.mk "1700000000000-0" "2024-01-05"
                 ("Coffee " ++ dquote ++ "Shop" ++ dquote)
                 (-4.5) "Dining" "" "a.pdf".


Definition coffee_row : string :=
  "2024-01-05," ++ dquote ++ "Coffee " ++ dquote ++ dquote ++ "Shop"
    ++ dquote ++ dquote ++ dquote ++ ",-4.5,Dining," ++ dquote ++ dquote
    ++ "," ++ dquote ++ "a.pdf" ++ dquote.

(** ** App.tsx: the queue, the progress display and the export file
       name *)

(** [xs.filter((x, i) => p(x, i))], counting from [i]. *)
Fixpoint filteri_from {A : Type} (i : nat) (p : A -> nat -> bool) (xs : list A)
  : list A :=
  match xs with
  | [] => []
  | x :: r =>
      if p x i then x :: filteri_from (S i) p r else filteri_from (S i) p r
  end.

(** [setFiles(prev => prev.filter((_, i) => i !== index))] *)
Definition removeFile (index : nat) (s : AppState) : AppState :=
  apply_effect s
    (setFiles (filteri_from 0 (fun _ i => negb (Nat.eqb i index)) (files s))).

Definition clearFiles (s : AppState) : AppState :=
  run_effects [setFiles []; setError None] s.

(** The last step of [onFileChange]: [setFiles(prev => [...prev, ...results])]. *)
Definition addFiles (results : list FileData.t) (s : AppState) : AppState :=
  apply_effect s (setFiles (files s ++ results)%list).

(** [s.split(sep)] for a separator of one character. *)
Fixpoint split_on (sep : ascii) (s : string) : list string :=
  match s with
  | EmptyString => [EmptyString]
  | String c r =>
      if Ascii.eqb c sep then EmptyString :: split_on sep r
      else match split_on sep r with
           | p :: ps => String c p :: ps
           | [] => [String c EmptyString]
           end
  end.

Fixpoint has_char (c : ascii) (s : string) : bool :=
  match s with
  | EmptyString => false
  | String c' r => Ascii.eqb c' c || has_char c r
  end.

(** [(reader.result as string).split(',')[1]]; [None] is [undefined]. *)
Definition base64_of_dataURL (result : string) : option string :=
  nth_error (split_on ","%char result) 1.

(** The [download] attribute set by [exportToCSV]; [iso] is what
    [new Date().toISOString()] returns. *)
Definition download_name (selectedView iso : string) : string :=
  (if String.eqb selectedView "all" then "batch"
   else hd "" (split_on "."%char selectedView))
  ++ "_statement_" ++ hd "" (split_on "T"%char iso) ++ ".csv".

(** A natural number as a JavaScript number. *)
Definition Q_of_nat (n : nat) : Q := inject_Z (Z.of_nat n).

Definition progressPercentage (s : AppState) : Q :=
  if Nat.ltb 0 (List.length (files s))
  then (Q_of_nat (processedCount s) / Q_of_nat (List.length (files s))) * 100
  else 0.

(** [idx < processedCount] and [idx === currentlyProcessingIdx] of the
    progress list. *)
Definition isDone (s : AppState) (idx : nat) : bool :=
  Nat.ltb idx (processedCount s).

Definition isCurrent (s : AppState) (idx : nat) : bool :=
  match currentlyProcessingIdx s with
  | Some i => Nat.eqb idx i
  | None => false
  end.

(** ** Further reference notions *)

(** The states a log goes through, one after each setter call. *)
Fixpoint trace (log : list Effect) (s : AppState) : list AppState :=
  match log with
  | [] => []
  | e :: r => apply_effect s e :: trace r (apply_effect s e)
  end.

(** The setter calls of a log paired with the state each one leaves. *)
Fixpoint steps (log : list Effect) (s : AppState) : list (Effect * AppState) :=
  match log with
  | [] => []
  | e :: r => (e, apply_effect s e) :: steps r (apply_effect s e)
  end.

(** The values given to [setProcessedCount], in order. *)
Fixpoint counter_values (log : list Effect) : list nat :=
  match log with
  | [] => []
  | setProcessedCount n :: r => n :: counter_values r
  | _ :: r => counter_values r
  end.

(** The labels of a list without repetitions, each at its first place. *)
Fixpoint first_occurrences (seen : list string) (labels : list string)
  : list string :=
  match labels with
  | [] => []
  | c :: r =>
      if existsb (String.eqb c) seen then first_occurrences seen r
      else c :: first_occurrences (c :: seen) r
  end.

(** Reading a quoted field the way CSV readers do: after the opening
    quote, two quotes in a row stand for one and a single quote ends the
    field.  The result is the field and what follows it. *)
Fixpoint read_quoted_body (s : string) : option (string * string) :=
  match s with
  | EmptyString => None
  | String c r =>
      if Ascii.eqb c (ascii_of_nat 34) then
        match r with
        | EmptyString => Some (EmptyString, EmptyString)
        | String c' r' =>
            if Ascii.eqb c' (ascii_of_nat 34) then
              match read_quoted_body r' with
              | Some (field, rest) => Some (String c field, rest)
              | None => None
              end
            else Some (EmptyString, r)
        end
      else
        match read_quoted_body r with
        | Some (field, rest) => Some (String c field, rest)
        | None => None
        end
  end.

Definition read_quoted (s : string) : option (string * string) :=
  match s with
  | EmptyString => None
  | String c r =>
      if Ascii.eqb c (ascii_of_nat 34) then read_quoted_body r else None
  end.

(** The string does not begin with a quote. *)
Definition no_leading_quote (s : string) : bool :=
  match s with
  | EmptyString => true
  | String c _ => negb (Ascii.eqb c (ascii_of_nat 34))
  end.

(** Two worlds give the same extraction results for the calls up to [k]. *)
Definition agree_up_to (env env' : Env) (k : nat) : Prop :=
  forall i fs, (i <= k)%nat ->
    extractTransactions env i fs = extractTransactions env' i fs.

(** ** The summary as the engine computes it

    The definitions above add and divide exact rationals and keep the
    category buckets in a map of own properties.  The module below is the
    same [summary] with what the engine really does: every [number] is an
    IEEE 754 binary64 value and every operation rounds to nearest-even
    ([SpecFloat] at precision 53, exponent bound 1024, with infinities, NaN
    and signed zeros), and [categoryMap] is an object literal, so reading a
    key also finds the members of [Object.prototype] and writing to
    [__proto__] goes to the inherited setter. *)

Module Js.

Definition number : Type := spec_float.

Definition fadd : number -> number -> number := SFadd 53 1024.
Definition fsub : number -> number -> number := SFsub 53 1024.
Definition fmul : number -> number -> number := SFmul 53 1024.
Definition fdiv : number -> number -> number := SFdiv 53 1024.

(** The double nearest to an integer; exact below [2^53]. *)
Definition of_Z (z : Z) : number := binary_normalize 53 1024 z 0 false.

(** The literals [0] and [100]. *)
Definition zero : number := S754_zero false.
Definition hundred : number := of_Z 100.

(** [a < b] and [a >= b]; both are false when a NaN is involved. *)
Definition lt (a b : number) : bool := SFltb a b.
Definition ge (a b : number) : bool := SFleb b a.

Definition finite (x : number) : bool :=
  match x with
  | S754_zero _ | S754_finite _ _ _ => true
  | S754_infinity _ | S754_nan => false
  end.

(** The rational a finite double stands for ([0] for the others). *)
Definition Q_of (x : number) : Q :=
  match x with
  | S754_finite s m e =>
      let v := match e with
               | Z0 => inject_Z (Zpos m)
               | Zpos p => inject_Z (Zpos (m * Pos.pow 2 p))
               | Zneg p => Zpos m # Pos.pow 2 p
               end in
      if s then - v else v
  | _ => 0
  end.

Module Transaction.
Record t : Type := mk {
  id : string;
  date : string;
  description : string;
  amount : number;
  category : string;
  notes : string;
  sourceFile : string
}.
End Transaction.

(** What a bucket of [categoryMap] can hold at run time. *)
Inductive value : Type :=
  | VNum (x : number)
  | VStr (s : string).

(** The function-valued members of [Object.prototype]; [__proto__] is its
    accessor and is treated apart. *)
Definition Object_prototype_functions : list string :=
  [ "constructor"; "hasOwnProperty"; "isPrototypeOf"; "propertyIsEnumerable";
    "toLocaleString"; "toString"; "valueOf"; "__defineGetter__";
    "__defineSetter__"; "__lookupGetter__"; "__lookupSetter__" ].

(** What such a member turns into when [+] makes a string of it. *)
Definition function_text (k : string) : string :=
  "function " ++ (if String.eqb k "constructor" then "Object" else k)
    ++ "() { [native code] }".

(** [x || 0] on a number: zeros and NaN are falsy. *)
Definition or_zero (x : number) : number :=
  match x with
  | S754_zero _ | S754_nan => zero
  | _ => x
  end.

(** [ToNumber]: the only strings a bucket can hold begin with [function],
    which is no numeric literal. *)
Definition to_number (v : value) : number :=
  match v with
  | VNum x => x
  | VStr _ => S754_nan
  end.

(** [a >= b] on what buckets hold: two strings are compared as strings,
    anything else as numbers. *)
Definition value_ge (a b : value) : bool :=
  match a, b with
  | VStr s, VStr s' => String.leb s' s
  | _, _ => ge (to_number a) (to_number b)
  end.

Definition is_income (t : Transaction.t) : bool := lt zero (Transaction.amount t).
Definition is_expense (t : Transaction.t) : bool := lt (Transaction.amount t) zero.

(** [xs.reduce((acc, t) => acc + t.amount, 0)] *)
Definition sum_amounts (xs : list Transaction.t) : number :=
  fold_left (fun acc t => fadd acc (Transaction.amount t)) xs zero.

Module CategoryDatum.
Record t : Type := mk {
  name : string;
  value : Js.value;
  percentage : number;
  color : string
}.
End CategoryDatum.

Module Summary.
Record t : Type := mk {
  count : nat;
  income : number;
  expenses : number;
  net : number;
  categoryData : list CategoryDatum.t
}.
End Summary.

(** [sort((a, b) => b.value - a.value)] as a stable insertion sort: [x]
    goes behind [y] when the comparator puts [y] first.  When a bucket is
    a string the differences are NaN, the comparator is not consistent and
    the engine may order the list otherwise. *)
Fixpoint insert_desc (x : CategoryDatum.t) (l : list CategoryDatum.t)
  : list CategoryDatum.t :=
  match l with
  | [] => [x]
  | y :: r =>
      if lt zero (fsub (to_number (CategoryDatum.value y))
                       (to_number (CategoryDatum.value x)))
      then y :: insert_desc x r
      else x :: l
  end.

Definition sort_by_value_desc (l : list CategoryDatum.t) : list CategoryDatum.t :=
  fold_right insert_desc [] l.

Definition to_datum (totalExpenseAbs : number) (e : string * value) (index : nat)
  : CategoryDatum.t :=
  let (name, value) := e in
  CategoryDatum.mk name value
    (if lt zero totalExpenseAbs
     then fmul (fdiv (to_number value) totalExpenseAbs) hundred
     else zero)
    (palette index).

Section Printer.
(** [Number.prototype.toString], used when [+] appends a number to a
    string. *)
Variable Number_toString : number -> string.

(** [categoryMap[k] = (categoryMap[k] || 0) + absAmount] *)
Definition bump (o : JsObject.t value) (k : string) (absAmount : number)
  : JsObject.t value :=
  match JsObject.get k o with
  | Some (VNum x) => JsObject.set k (VNum (fadd (or_zero x) absAmount)) o
  | Some (VStr EmptyString) => JsObject.set k (VNum (fadd zero absAmount)) o
  | Some (VStr s) => JsObject.set k (VStr (s ++ Number_toString absAmount)) o
  | None =>
      if String.eqb k "__proto__" then o
      else if existsb (String.eqb k) Object_prototype_functions
      then JsObject.set k
             (VStr (function_text k ++ Number_toString absAmount)) o
      else JsObject.set k (VNum (fadd zero absAmount)) o
  end.

Definition add_to_category (m : JsObject.t value) (t : Transaction.t)
  : JsObject.t value :=
  if is_expense t
  then bump m (Transaction.category t) (SFabs (Transaction.amount t))
  else m.

Definition categoryMap (currentTransactions : list Transaction.t)
  : JsObject.t value :=
  fold_left add_to_category currentTransactions JsObject.empty.

Definition unsorted_categoryData (currentTransactions : list Transaction.t)
  : list CategoryDatum.t :=
  let expenses := sum_amounts (filter is_expense currentTransactions) in
  mapi (to_datum (SFabs expenses))
       (JsObject.entries (categoryMap currentTransactions)).

Definition summary (currentTransactions : list Transaction.t) : Summary.t :=
  let income := sum_amounts (filter is_income currentTransactions) in
  let expenses := sum_amounts (filter is_expense currentTransactions) in
  let totalExpenseAbs := SFabs expenses in
  let categoryData :=
    sort_by_value_desc (unsorted_categoryData currentTransactions) in
  Summary.mk (List.length currentTransactions)
             income totalExpenseAbs (fadd income expenses) categoryData.

(** *** The claims about the summary, as they are worded *)

(** An amount above and an amount below zero, read off the sign of the
    double; the zeros and NaN are neither. *)
Definition positive_amount (t : Transaction.t) : bool :=
  match Transaction.amount t with
  | S754_finite false _ _ | S754_infinity false => true
  | _ => false
  end.

Definition negative_amount (t : Transaction.t) : bool :=
  match Transaction.amount t with
  | S754_finite true _ _ | S754_infinity true => true
  | _ => false
  end.

Definition amounts (ts : list Transaction.t) : list Q :=
  map (fun t => Q_of (Transaction.amount t)) ts.


(** [net] is the arithmetic sum of the amounts. *)
Definition net_is_arithmetic_sum (ts : list Transaction.t) : Prop :=
  Q_of (Summary.net (summary ts)) == total (amounts ts).



(** Neighbours of [categoryData] satisfy [value >= value]. *)
Definition sorted_desc (ts : list Transaction.t) : Prop :=
  forall i a b,
    nth_error (Summary.categoryData (summary ts)) i = Some a ->
    nth_error (Summary.categoryData (summary ts)) (S i) = Some b ->
    value_ge (CategoryDatum.value a) (CategoryDatum.value b) = true.

(** The names are pairwise distinct and are the labels of the
    transactions with a negative amount. *)
Definition names_are_expense_labels (ts : list Transaction.t) : Prop :=
  NoDup (map CategoryDatum.name (Summary.categoryData (summary ts)))
  /\ forall c : string,
       In c (map CategoryDatum.name (Summary.categoryData (summary ts)))
       <-> exists t, In t ts /\ negative_amount t = true
                     /\ Transaction.category t = c.

(** *** When nothing rounds *)

(** The addition of two doubles gives their sum. *)
Definition exact_add (x y : number) : Prop :=
  finite (fadd x y) = true /\ Q_of (fadd x y) == Q_of x + Q_of y.

(** Every addition of a [reduce] that starts from [acc] is exact. *)
Fixpoint sum_exact (acc : number) (xs : list Transaction.t) : Prop :=
  match xs with
  | [] => True
  | t :: r =>
      exact_add acc (Transaction.amount t)
      /\ sum_exact (fadd acc (Transaction.amount t)) r
  end.

(** [(categoryMap[k] || 0)] for a bucket that holds a number or does not
    exist. *)
Definition current (o : JsObject.t value) (k : string) : number :=
  match JsObject.get k o with
  | Some (VNum x) => or_zero x
  | _ => zero
  end.

(** Every addition to a bucket is exact, from the map [o] on. *)
Fixpoint buckets_exact (o : JsObject.t value) (ts : list Transaction.t) : Prop :=
  match ts with
  | [] => True
  | t :: r =>
      (negative_amount t = true ->
       exact_add (current o (Transaction.category t))
                 (SFabs (Transaction.amount t)))
      /\ buckets_exact (add_to_category o t) r
  end.


(** The percentage the [map] callback computes for a bucket. *)
Definition percentage_of (totalExpenseAbs : number) (v : value) : number :=
  if lt zero totalExpenseAbs
  then fmul (fdiv (to_number v) totalExpenseAbs) hundred
  else zero.

End Printer.

(** No amount is an infinity or a NaN. *)
Definition finite_amounts (ts : list Transaction.t) : Prop :=
  Forall (fun t => finite (Transaction.amount t) = true) ts.

(** A label that is no member of [Object.prototype]. *)
Definition plain_label (k : string) : bool :=
  negb (String.eqb k "__proto__")
  && negb (existsb (String.eqb k) Object_prototype_functions).

(** No transaction with a negative amount carries the name of a member of
    [Object.prototype]. *)
Definition plain_labels (ts : list Transaction.t) : Prop :=
  Forall (fun t => negative_amount t = true ->
                   plain_label (Transaction.category t) = true) ts.

(** The two [reduce] sums and the addition that gives [net] are exact. *)
Definition sums_exact (ts : list Transaction.t) : Prop :=
  sum_exact zero (filter positive_amount ts)
  /\ sum_exact zero (filter negative_amount ts)
  /\ exact_add (sum_amounts (filter positive_amount ts))
               (sum_amounts (filter negative_amount ts)).

(** The buckets of an object read as rationals, added up. *)
Definition bucket_total (o : JsObject.t value) : Q :=
  total (map (fun e => Q_of (to_number (snd e))) o).

(** Every bucket holds a finite number. *)
Definition numeric_buckets (o : JsObject.t value) : Prop :=
  Forall (fun e => exists x, snd e = VNum x /\ finite x = true) o.

(** The magnitudes of the amounts below zero that carry the label [c]. *)
Definition magnitudes_of (c : string) (ts : list Transaction.t) : list Q :=
  map (fun t => Q_of (SFabs (Transaction.amount t)))
      (filter (fun t => negative_amount t
                        && String.eqb (Transaction.category t) c) ts).

(** The labels of the transactions with an amount below zero, in list
    order. *)
Definition expense_labels (ts : list Transaction.t) : list string :=
  map Transaction.category (filter negative_amount ts).

(** The magnitudes of the amounts below zero. *)
Definition magnitudes (ts : list Transaction.t) : list Q :=
  map (fun t => Q_of (SFabs (Transaction.amount t))) (filter negative_amount ts).

(** A printer for the doubles that are whole numbers. *)
Definition integer_toString (x : number) : string :=
  let q := Q_of x in
  (if (Qnum q <? 0)%Z then "-" else "")
  ++ string_of_N (Z.abs_N (Qnum q / Zpos (Qden q))).

(** Sample inputs. *)
Definition sample (a : Z) (c : string) : Transaction.t :=
  Transaction.mk "" "2024-01-05" "" (of_Z a) c "" "a.pdf".

Definition big_then_small : list Transaction.t :=
  [ sample (2 ^ 53) "Salary"; sample 1 "Refund"; sample (-1) "Fees" ].



Definition with_constructor : list Transaction.t :=
  [ sample (-15) "Food"; sample (-5) "constructor" ].

Definition with_proto : list Transaction.t :=
  [ sample (-5) "__proto__" ].

Definition food_travel : list Transaction.t :=
  [ sample 100 "Salary"; sample (-40) "Food"; sample (-10) "Food";
    sample (-30) "Travel" ].

End Js.

(** * Properties *)

(** ** Numbers and sums *)




Lemma total_app (xs ys : list Q) : total (xs ++ ys) == total xs + total ys.
Proof.
  induction xs as [| x xs IH]; simpl.
  - ring.
  - rewrite IH. ring.
Qed.


(** The summary of the four-transaction scenario: income 100, expenses 70,
    net 30, Food 50 before Travel 20. *)
Example summary_food_travel :
  summary scenario_food_travel
  = Summary.mk 4 100 70 30
      [ CategoryDatum.mk "Food" 50 (5000 # 70) "#4f46e5";
        CategoryDatum.mk "Travel" 20 (2000 # 70) "#f43f5e" ].
Proof.
  reflexivity.
Qed.

(** Array-index labels are enumerated first, in numeric order. *)
Example entries_order :
  JsObject.keys
    (categoryMap [ sample (-1) "Rent"; sample (-1) "10"; sample (-1) "2";
                   sample (-1) "02"; sample (-1) "Rent"; sample 5 "Gift" ])
  = ["2"; "10"; "Rent"; "02"].
Proof.
  reflexivity.
Qed.


(** ** Objects used as maps *)

Section ObjectKeys.
Context {V : Type}.
Implicit Types (o : JsObject.t V) (k : string) (v : V).

Lemma has_In_keys k o :
  JsObject.has k o = true <-> In k (JsObject.keys o).
Proof.
  unfold JsObject.has.
  induction o as [| [k' v'] r IH]; simpl.
  - split; [ discriminate | tauto ].
  - destruct (String.eqb k k') eqn:E.
    + apply String.eqb_eq in E. subst. tauto.
    + apply String.eqb_neq in E. rewrite IH.
      split; [ tauto | intros [H | H]; [ congruence | exact H ] ].
Qed.

Lemma keys_replace k v o :
  JsObject.keys (JsObject.replace k v o) = JsObject.keys o.
Proof.
  induction o as [| [k' v'] r IH]; simpl.
  - reflexivity.
  - destruct (String.eqb k k'); simpl; [ reflexivity | now rewrite IH ].
Qed.

Lemma keys_insert_index n k v o :
  Permutation (JsObject.keys (JsObject.insert_index n k v o))
              (k :: JsObject.keys o).
Proof.
  induction o as [| [k' v'] r IH]; simpl.
  - apply Permutation_refl.
  - destruct (JsObject.array_index k') as [n' |].
    + destruct (n' <? n)%N; simpl.
      * rewrite IH. apply perm_swap.
      * apply Permutation_refl.
    + apply Permutation_refl.
Qed.

Lemma keys_create k v o :
  Permutation (JsObject.keys (JsObject.create k v o)) (k :: JsObject.keys o).
Proof.
  unfold JsObject.create.
  destruct (JsObject.array_index k) as [n |].
  - apply keys_insert_index.
  - unfold JsObject.keys. rewrite map_app. simpl.
    symmetry. apply Permutation_cons_append.
Qed.

Lemma keys_set_In k v o k' :
  In k' (JsObject.keys (JsObject.set k v o))
  <-> k' = k \/ In k' (JsObject.keys o).
Proof.
  unfold JsObject.set.
  destruct (JsObject.has k o) eqn:E.
  - rewrite keys_replace. apply has_In_keys in E.
    split; [ tauto | intros [-> | H]; assumption ].
  - split; intro H.
    + apply (Permutation_in _ (keys_create k v o)) in H.
      destruct H as [<- | H]; tauto.
    + apply (Permutation_in _ (Permutation_sym (keys_create k v o))).
      destruct H as [-> | H]; [ now left | now right ].
Qed.

Lemma keys_set_NoDup k v o :
  NoDup (JsObject.keys o) -> NoDup (JsObject.keys (JsObject.set k v o)).
Proof.
  intro Hnd. unfold JsObject.set.
  destruct (JsObject.has k o) eqn:E.
  - now rewrite keys_replace.
  - apply (Permutation_NoDup (Permutation_sym (keys_create k v o))).
    constructor; [| exact Hnd ].
    intro Hin. apply has_In_keys in Hin. congruence.
Qed.
End ObjectKeys.

(** ** Indexed map and sort *)

Lemma In_mapi_from {A B : Type} (f : A -> nat -> B) (xs : list A) (i : nat) (y : B) :
  In y (mapi_from i f xs)
  <-> exists j x, nth_error xs j = Some x /\ y = f x (i + j)%nat.
Proof.
  revert i. induction xs as [| x xs IH]; intro i; simpl.
  - split; [ tauto | intros [[| j] [x [H _]]]; discriminate ].
  - rewrite IH. split.
    + intros [<- | [j [x' [H1 H2]]]].
      * exists 0%nat, x. rewrite Nat.add_0_r. split; reflexivity.
      * exists (S j), x'. rewrite Nat.add_succ_r. split; assumption.
    + intros [[| j] [x' [H1 H2]]]; simpl in H1.
      * injection H1 as <-. rewrite Nat.add_0_r in H2. now left.
      * right. exists j, x'. rewrite Nat.add_succ_r in H2. split; assumption.
Qed.

Lemma insert_desc_Permutation (x : CategoryDatum.t) (l : list CategoryDatum.t) :
  Permutation (insert_desc x l) (x :: l).
Proof.
  induction l as [| y r IH]; simpl.
  - apply Permutation_refl.
  - destruct (Qltb (CategoryDatum.value x) (CategoryDatum.value y)).
    + rewrite IH. apply perm_swap.
    + apply Permutation_refl.
Qed.

Lemma sort_Permutation (l : list CategoryDatum.t) :
  Permutation (sort_by_value_desc l) l.
Proof.
  induction l as [| x l IH]; simpl.
  - apply perm_nil.
  - rewrite insert_desc_Permutation. now apply perm_skip.
Qed.

(** ** The summary *)

Lemma categoryData_Permutation (ts : list Transaction.t) :
  Permutation (Summary.categoryData (summary ts)) (unsorted_categoryData ts).
Proof.
  apply sort_Permutation.
Qed.

Lemma categoryData_origin (ts : list Transaction.t) (e : CategoryDatum.t) :
  In e (Summary.categoryData (summary ts)) ->
  exists i k v,
    nth_error (JsObject.entries (categoryMap ts)) i = Some (k, v)
    /\ e = to_datum (Summary.expenses (summary ts)) (k, v) i.
Proof.
  intro H.
  apply (Permutation_in _ (categoryData_Permutation ts)) in H.
  apply In_mapi_from in H. destruct H as [j [[k v] [H1 H2]]].
  exists j, k, v. split; assumption.
Qed.

(** C1, as stated, fails: with an expense of 10 in category A followed by
    one of 20 in category B, the first entry of the sorted output is B and
    carries the second palette colour. *)
Lemma colors_not_in_output_order :
  ~ colors_cycle_in_output_order scenario_small_first.
Proof.
  intro H.
  specialize (H 0%nat (CategoryDatum.mk "B" 20 (2000 # 30) "#f43f5e") eq_refl).
  discriminate H.
Qed.

(** C1, amended. The colour of an entry of [categoryData] is the palette
    colour at the position, modulo 8, that its category has among the keys
    of the category map, in the order [Object.entries] lists them, which is
    the order before sorting. *)
Theorem colors_follow_grouping_order (ts : list Transaction.t)
    (e : CategoryDatum.t) :
  In e (Summary.categoryData (summary ts)) ->
  exists i,
    nth_error (JsObject.keys (categoryMap ts)) i = Some (CategoryDatum.name e)
    /\ CategoryDatum.color e = nth (Nat.modulo i 8) COLORS "undefined".
Proof.
  intro He. destruct (categoryData_origin ts e He) as [i [k [v [Hi ->]]]].
  exists i. split.
  - unfold JsObject.keys. rewrite nth_error_map.
    unfold JsObject.entries in Hi. now rewrite Hi.
  - reflexivity.
Qed.

Lemma colors_follow_grouping_order_witness :
  exists i,
    nth_error (JsObject.keys (categoryMap scenario_small_first)) i = Some "B"
    /\ "#f43f5e" = nth (Nat.modulo i 8) COLORS "undefined".
Proof.
  apply (colors_follow_grouping_order scenario_small_first
           (CategoryDatum.mk "B" 20 (2000 # 30) "#f43f5e")).
  left. reflexivity.
Defined.

(** ** The orchestrator loop *)

Lemma consolidated_from_cons (env : Env) (i : nat) (f : FileData.t)
    (rest : list FileData.t) :
  consolidated_from env i (f :: rest)
  = (tagged_records env f i ++ consolidated_from env (S i) rest)%list.
Proof.
  reflexivity.
Qed.

(** What one pass of the loop returns: on normal exit every document has
    been extracted, the accumulator has grown by the tagged records in
    order and each iteration reported progress; on an exception the loop
    stopped at the first document [k] whose extraction throws, after
    reporting [k] completed documents and marking [k] as in progress. *)
Lemma process_loop_spec (env : Env) (todo : list FileData.t) :
  forall (i : nat) (acc : list Transaction.t),
    match process_loop env todo i acc with
    | (log, inr all) =>
        (forall j f, nth_error todo j = Some f -> succeeds env (i + j) f)
        /\ all = (acc ++ consolidated_from env i todo)%list
        /\ log = progress_log i (List.length todo)
    | (log, inl err) =>
        exists k f,
          nth_error todo k = Some f
          /\ extractTransactions env (i + k) [f] = inl err
          /\ (forall j f', (j < k)%nat -> nth_error todo j = Some f' ->
                          succeeds env (i + j) f')
          /\ log = (progress_log i k
                    ++ [setCurrentlyProcessingIdx (Some (i + k)%nat)])%list
    end.
Proof.
  induction todo as [| f rest IH]; intros i acc.
  - simpl. split; [| split ].
    + intros [| j] f H; discriminate H.
    + unfold consolidated_from. simpl. now rewrite app_nil_r.
    + reflexivity.
  - simpl.
    destruct (extractTransactions env i [f]) as [err | result] eqn:E.
    + exists 0%nat, f. rewrite Nat.add_0_r.
      repeat split; [ exact E | intros j f' Hj; lia ].
    + specialize (IH (S i)
                     (acc ++ map (with_sourceFile (FileData.name f)) result)%list).
      destruct (process_loop env rest (S i)
                  (acc ++ map (with_sourceFile (FileData.name f)) result)%list)
        as [log [err | all]].
      * destruct IH as [k [f' [H1 [H2 [H3 H4]]]]].
        exists (S k), f'. rewrite Nat.add_succ_r.
        repeat split; [ exact H1 | exact H2 | | now rewrite H4 ].
        intros [| j] g Hj Hg; simpl in Hg.
        -- injection Hg as <-. rewrite Nat.add_0_r. now exists result.
        -- rewrite Nat.add_succ_r. apply (H3 j g); [ lia | exact Hg ].
      * destruct IH as [H1 [H2 H3]]. split; [| split ].
        -- intros [| j] g Hg; simpl in Hg.
           ++ injection Hg as <-. rewrite Nat.add_0_r. now exists result.
           ++ rewrite Nat.add_succ_r. now apply H1.
        -- rewrite H2, consolidated_from_cons. unfold tagged_records.
           rewrite E. now rewrite app_assoc.
        -- now rewrite H3.
Qed.

Lemma run_effects_app (l1 l2 : list Effect) (s : AppState) :
  run_effects (l1 ++ l2) s = run_effects l2 (run_effects l1 s).
Proof.
  apply fold_left_app.
Qed.

(** The state after [n] successful iterations. *)
Lemma run_progress_log (n : nat) :
  forall (i : nat) (s : AppState),
    run_effects (progress_log i n) s
    = match n with
      | O => s
      | S n' =>
          mkAppState (files s) (transactions s) (status s) (error s)
                     (selectedView s) (i + n)%nat (Some (i + n')%nat)
      end.
Proof.
  induction n as [| n IH]; intros i s.
  - reflexivity.
  - change (run_effects (progress_log i (S n)) s)
      with (run_effects (progress_log (S i) n)
              (apply_effect
                 (apply_effect s (setCurrentlyProcessingIdx (Some i)))
                 (setProcessedCount (i + 1)))).
    rewrite IH. destruct n as [| n]; simpl.
    + now rewrite Nat.add_0_r.
    + f_equal; [ lia | f_equal; lia ].
Qed.

Lemma progress_log_quiet (f : Effect -> bool) (i n : nat) :
  (forall x, f (setCurrentlyProcessingIdx x) = false) ->
  (forall x, f (setProcessedCount x) = false) ->
  filter f (progress_log i n) = [].
Proof.
  intros H1 H2. revert i. induction n as [| n IH]; intro i; simpl.
  - reflexivity.
  - now rewrite H1, H2, IH.
Qed.

Lemma progress_log_indices (i n x : nat) :
  In (setCurrentlyProcessingIdx (Some x)) (progress_log i n) ->
  (i <= x < i + n)%nat.
Proof.
  revert i. induction n as [| n IH]; intro i; simpl.
  - tauto.
  - intros [H | [H | H]].
    + injection H as <-. lia.
    + discriminate H.
    + apply IH in H. lia.
Qed.

(** The state a successful run ends in. *)
Lemma processStatements_success (env : Env) (s : AppState) :
  files s <> [] -> all_succeed env (files s) ->
  processStatements env s
  = mkAppState (files s) (consolidated env (files s)) SUCCESS None "all"
               (List.length (files s)) None.
Proof.
  intros Hne Hall. unfold processStatements, processStatements_effects.
  pose proof (process_loop_spec env (files s) 0 []) as Hspec.
  destruct (files s) as [| f rest] eqn:Hfs; [ congruence |].
  destruct (process_loop env (f :: rest) 0 []) as [log [err | all]].
  - exfalso. destruct Hspec as [k [g [H1 [H2 _]]]].
    destruct (Hall k g H1) as [result Hr]. simpl in H2. congruence.
  - destruct Hspec as [_ [-> ->]].
    rewrite !run_effects_app, run_progress_log. simpl.
    rewrite Hfs. reflexivity.
Qed.

(** The log and the state of a run in which some extraction throws: [k] is
    the first document that fails and [err] what it throws. *)
Lemma processStatements_failure (env : Env) (s : AppState) (j : nat)
    (f : FileData.t) :
  nth_error (files s) j = Some f -> ~ succeeds env j f ->
  exists k g err,
    (k <= j)%nat
    /\ nth_error (files s) k = Some g
    /\ extractTransactions env k [g] = inl err
    /\ processStatements_effects env (files s)
       = ([setStatus ANALYZING; setError None; setProcessedCount 0;
           setTransactions []]
          ++ progress_log 0 k
          ++ [setCurrentlyProcessingIdx (Some k)]
          ++ [setError (Some (message_or_default err)); setStatus ERROR;
              setCurrentlyProcessingIdx None])%list
    /\ processStatements env s
       = mkAppState (files s) [] ERROR (Some (message_or_default err))
                    (selectedView s) k None.
Proof.
  intros Hj Hfail. unfold processStatements, processStatements_effects.
  pose proof (process_loop_spec env (files s) 0 []) as Hspec.
  destruct (files s) as [| f0 rest] eqn:Hfs; [ destruct j; discriminate |].
  destruct (process_loop env (f0 :: rest) 0 []) as [log [err | all]].
  - destruct Hspec as [k [g [H1 [H2 [H3 ->]]]]]. simpl in H2.
    exists k, g, err.
    assert (Hk : (k <= j)%nat).
    { destruct (Nat.le_gt_cases k j) as [H | H]; [ exact H |].
      exfalso. apply Hfail. exact (H3 j f H Hj). }
    repeat split; try assumption.
    + now rewrite <- app_assoc.
    + rewrite !run_effects_app, run_progress_log.
      destruct k; simpl; rewrite ?Hfs; reflexivity.
  - exfalso. apply Hfail. destruct Hspec as [H _]. exact (H j f Hj).
Qed.

(** The document at which a failed run stops is the first whose extraction
    throws. *)
Lemma processStatements_first_failure (env : Env) (s : AppState) (j : nat)
    (f : FileData.t) :
  nth_error (files s) j = Some f -> ~ succeeds env j f ->
  exists k g err,
    (k <= j)%nat
    /\ nth_error (files s) k = Some g
    /\ extractTransactions env k [g] = inl err
    /\ (forall i h, (i < k)%nat -> nth_error (files s) i = Some h ->
                    succeeds env i h)
    /\ processStatements_effects env (files s)
       = ([setStatus ANALYZING; setError None; setProcessedCount 0;
           setTransactions []]
          ++ progress_log 0 k
          ++ [setCurrentlyProcessingIdx (Some k)]
          ++ [setError (Some (message_or_default err)); setStatus ERROR;
              setCurrentlyProcessingIdx None])%list
    /\ processStatements env s
       = mkAppState (files s) [] ERROR (Some (message_or_default err))
                    (selectedView s) k None.
Proof.
  intros Hj Hfail. unfold processStatements, processStatements_effects.
  pose proof (process_loop_spec env (files s) 0 []) as Hspec.
  destruct (files s) as [| f0 rest] eqn:Hfs; [ destruct j; discriminate |].
  destruct (process_loop env (f0 :: rest) 0 []) as [log [err | all]].
  - destruct Hspec as [k [g [H1 [H2 [H3 ->]]]]]. simpl in H2.
    exists k, g, err.
    assert (Hk : (k <= j)%nat).
    { destruct (Nat.le_gt_cases k j) as [H | H]; [ exact H |].
      exfalso. apply Hfail. exact (H3 j f H Hj). }
    split; [ exact Hk | split; [ exact H1 | split; [ exact H2 | split ] ] ].
    + intros i h Hi Hh. exact (H3 i h Hi Hh).
    + split.
      * now rewrite <- app_assoc.
      * rewrite !run_effects_app, run_progress_log.
        destruct k; simpl; rewrite ?Hfs; reflexivity.
  - exfalso. apply Hfail. destruct Hspec as [H _]. exact (H j f Hj).
Qed.

(** What [err.message || default] evaluates to. *)
Lemma message_or_default_cases (err : JsError.t) :
  message_or_default err <> ""
  /\ (JsError.message err = Some (message_or_default err)
      \/ ((JsError.message err = None \/ JsError.message err = Some "")
          /\ message_or_default err = default_error_message)).
Proof.
  unfold message_or_default.
  destruct (JsError.message err) as [[| c m] |].
  - split; [ discriminate | right; split; [ now right | reflexivity ] ].
  - split; [ discriminate | now left ].
  - split; [ discriminate | right; split; [ now left | reflexivity ] ].
Qed.

Lemma nth_error_mapi_from {A B : Type} (g : A -> nat -> B) (xs : list A) :
  forall i j : nat,
    nth_error (mapi_from i g xs) j
    = option_map (fun x => g x (i + j)%nat) (nth_error xs j).
Proof.
  induction xs as [| x xs IH]; intros i [| j]; simpl; try reflexivity.
  - now rewrite Nat.add_0_r.
  - rewrite IH. now rewrite Nat.add_succ_r.
Qed.

Lemma length_mapi_from {A B : Type} (g : A -> nat -> B) (xs : list A) :
  forall i : nat, List.length (mapi_from i g xs) = List.length xs.
Proof.
  induction xs as [| x xs IH]; intro i; simpl; [ reflexivity | now rewrite IH ].
Qed.

Lemma with_sourceFile_copies (name : string) (result : list Transaction.t) :
  Forall2 (tagged_copy name) result (map (with_sourceFile name) result).
Proof.
  induction result as [| r result IH]; simpl; constructor.
  - repeat split.
  - exact IH.
Qed.

(** ** Identifiers *)

Lemma string_of_uint_no_dash (d : Decimal.uint) :
  has_dash (NilEmpty.string_of_uint d) = false.
Proof.
  induction d; simpl; try rewrite IHd; reflexivity.
Qed.

Lemma string_of_N_inj (n m : N) : string_of_N n = string_of_N m -> n = m.
Proof.
  unfold string_of_N. intro H.
  apply Unsigned.to_uint_inj.
  assert (Some (N.to_uint n) = Some (N.to_uint m)) as [= E]; [| exact E ].
  rewrite <- !NilEmpty.usu. now rewrite H.
Qed.

(** A dash-free prefix is determined by what follows its first dash. *)
Lemma dash_split (a b x y : string) :
  has_dash a = false -> has_dash b = false ->
  a ++ "-" ++ x = b ++ "-" ++ y -> a = b /\ x = y.
Proof.
  revert b. induction a as [| c a IH]; intros [| c' b] Ha Hb H; simpl in *.
  - injection H as <-. split; reflexivity.
  - injection H as <- _. discriminate Hb.
  - injection H as -> _. discriminate Ha.
  - injection H as <- H.
    apply orb_false_iff in Ha, Hb.
    destruct (IH b (proj2 Ha) (proj2 Hb) H) as [-> ->].
    split; reflexivity.
Qed.

Lemma make_id_inj (now now' : N) (i j : nat) :
  make_id now i = make_id now' j -> now = now' /\ i = j.
Proof.
  unfold make_id. intro H.
  apply dash_split in H; try apply string_of_uint_no_dash.
  destruct H as [H1 H2].
  apply string_of_N_inj in H1, H2.
  split; [ exact H1 | now apply Nat2N.inj ].
Qed.

Lemma id_with_sourceFile (name : string) (ts : list Transaction.t) :
  map Transaction.id (map (with_sourceFile name) ts) = map Transaction.id ts.
Proof.
  rewrite map_map. reflexivity.
Qed.

Lemma stamped_ids_from (env : Env) (call : nat) (items : list RawTransaction.t)
    (i : nat) (x : string) :
  In x (map Transaction.id (mapi_from i (stamp env call) items)) ->
  exists j, (i <= j)%nat /\ x = make_id (Date_now env call j) j.
Proof.
  intro H. apply in_map_iff in H. destruct H as [t [<- Ht]].
  apply In_mapi_from in Ht. destruct Ht as [j [r [_ ->]]].
  exists (i + j)%nat. split; [ lia | reflexivity ].
Qed.

Lemma stamped_ids_NoDup (env : Env) (call : nat) (items : list RawTransaction.t) :
  forall i, NoDup (map Transaction.id (mapi_from i (stamp env call) items)).
Proof.
  induction items as [| r items IH]; intro i; simpl.
  - constructor.
  - constructor; [| apply IH ].
    intro H. apply stamped_ids_from in H. destruct H as [j [Hj H]].
    apply make_id_inj in H. lia.
Qed.

Lemma tagged_ids (env : Env) (f : FileData.t) (i : nat) (x : string) :
  In x (map Transaction.id (tagged_records env f i)) ->
  exists j, x = make_id (Date_now env i j) j.
Proof.
  unfold tagged_records, extractTransactions.
  destruct (generateContent env i [f]) as [err | items]; simpl.
  - tauto.
  - rewrite id_with_sourceFile. intro H.
    apply stamped_ids_from in H. destruct H as [j [_ H]]. now exists j.
Qed.

Lemma tagged_ids_NoDup (env : Env) (f : FileData.t) (i : nat) :
  NoDup (map Transaction.id (tagged_records env f i)).
Proof.
  unfold tagged_records, extractTransactions.
  destruct (generateContent env i [f]) as [err | items]; simpl.
  - constructor.
  - rewrite id_with_sourceFile. apply stamped_ids_NoDup.
Qed.

Lemma consolidated_ids (env : Env) (fs : list FileData.t) :
  forall (i : nat) (x : string),
    In x (map Transaction.id (consolidated_from env i fs)) ->
    exists i' j,
      (i <= i' < i + List.length fs)%nat
      /\ x = make_id (Date_now env i' j) j.
Proof.
  induction fs as [| f rest IH]; intros i x H.
  - destruct H.
  - rewrite consolidated_from_cons, map_app in H.
    apply in_app_or in H. destruct H as [H | H].
    + apply tagged_ids in H. destruct H as [j ->].
      exists i, j. simpl. split; [ lia | reflexivity ].
    + apply IH in H. destruct H as [i' [j [Hi ->]]].
      exists i', j. simpl. split; [ lia | reflexivity ].
Qed.

Lemma consolidated_ids_NoDup (env : Env) (fs : list FileData.t) :
  forall i : nat,
    clock_separates_documents env (i + List.length fs) ->
    NoDup (map Transaction.id (consolidated_from env i fs)).
Proof.
  induction fs as [| f rest IH]; intros i Hclock.
  - constructor.
  - rewrite consolidated_from_cons, map_app.
    apply NoDup_app.
    + apply tagged_ids_NoDup.
    + apply IH. simpl in Hclock.
      now rewrite Nat.add_succ_l, <- Nat.add_succ_r.
    + intros x H1 H2.
      apply tagged_ids in H1. destruct H1 as [j ->].
      apply consolidated_ids in H2. destruct H2 as [i' [j' [Hi H]]].
      apply make_id_inj in H. destruct H as [H _].
      apply (Hclock i i' j j'); [ simpl; lia | exact H ].
Qed.

(** A run either extracts every document or meets one that throws. *)
Lemma processStatements_outcome (env : Env) (fs : list FileData.t) :
  all_succeed env fs
  \/ exists j f, nth_error fs j = Some f /\ ~ succeeds env j f.
Proof.
  pose proof (process_loop_spec env fs 0 []) as Hspec.
  destruct (process_loop env fs 0 []) as [log [err | all]].
  - right. destruct Hspec as [k [g [H1 [H2 _]]]]. simpl in H2.
    exists k, g. split; [ exact H1 |].
    intros [result Hr]. congruence.
  - left. destruct Hspec as [H _]. exact H.
Qed.

(** ** The orchestrator *)

Lemma sourceFile_tagged (env : Env) (f : FileData.t) (i : nat) :
  Forall (fun t => Transaction.sourceFile t = FileData.name f)
         (tagged_records env f i).
Proof.
  unfold tagged_records.
  destruct (extractTransactions env i [f]) as [err | result].
  - constructor.
  - apply Forall_forall. intros t Ht.
    apply in_map_iff in Ht. destruct Ht as [t' [<- _]]. reflexivity.
Qed.

(** The empty queue is refused: nothing is set. *)
Lemma processStatements_empty (env : Env) (s : AppState) :
  files s = [] -> processStatements env s = s.
Proof.
  intro H. unfold processStatements. now rewrite H.
Qed.

(** C4. When every extraction of the queue returns, the list left in the
    state is the per-document results one after the other in submission
    order: it is the concatenation of one part per document, the part of
    the document at position [i] holding the records its extraction
    returned, in their order and with the same id, date, description,
    amount, category and notes, each with the name of the document as its
    source; and the completed counter is the number of documents.  The
    empty queue is refused and leaves the state as it is, so for it the
    state must be the one before any batch. *)
Theorem processStatements_concatenates (env : Env) (s : AppState) :
  all_succeed env (files s) ->
  files s <> [] \/ (transactions s = [] /\ processedCount s = 0%nat) ->
  let s' := processStatements env s in
  transactions s' = List.concat (mapi (tagged_records env) (files s))
  /\ (forall i f, nth_error (files s) i = Some f ->
        (exists result,
            extractTransactions env i [f] = inr result
            /\ tagged_records env f i
               = map (with_sourceFile (FileData.name f)) result)
        /\ Forall (fun t => Transaction.sourceFile t = FileData.name f)
                  (tagged_records env f i))
  /\ processedCount s' = List.length (files s)
  /\ exists parts : list (list Transaction.t),
       transactions s' = List.concat parts
       /\ List.length parts = List.length (files s)
       /\ forall i f, nth_error (files s) i = Some f ->
            exists result part,
              extractTransactions env i [f] = inr result
              /\ nth_error parts i = Some part
              /\ Forall2 (tagged_copy (FileData.name f)) result part.
Proof.
  intros Hall Hpre s'. unfold s'.
  assert (Hdocs : forall i f, nth_error (files s) i = Some f ->
        (exists result,
            extractTransactions env i [f] = inr result
            /\ tagged_records env f i
               = map (with_sourceFile (FileData.name f)) result)
        /\ Forall (fun t => Transaction.sourceFile t = FileData.name f)
                  (tagged_records env f i)).
  { intros i f H. split; [| apply sourceFile_tagged ].
    destruct (Hall i f H) as [result Hr]. exists result.
    split; [ exact Hr |]. unfold tagged_records. now rewrite Hr. }
  assert (Hts : transactions (processStatements env s)
                = List.concat (mapi (tagged_records env) (files s))
                /\ processedCount (processStatements env s)
                   = List.length (files s)).
  { destruct (files s) as [| f0 rest] eqn:Hfs.
    - destruct Hpre as [Hne | [Hts Hcount]]; [ congruence |].
      rewrite (processStatements_empty env s Hfs).
      split; [ exact Hts | exact Hcount ].
    - rewrite <- Hfs in *.
      assert (Hne : files s <> []) by (rewrite Hfs; discriminate).
      rewrite (processStatements_success env s Hne Hall). simpl.
      split; reflexivity. }
  destruct Hts as [Hts Hcount].
  split; [ exact Hts | split; [ exact Hdocs | split; [ exact Hcount |] ] ].
  exists (mapi (tagged_records env) (files s)).
  split; [ exact Hts | split; [ apply length_mapi_from |] ].
  intros i f Hf.
  destruct (Hdocs i f Hf) as [[result [Hr Htag]] _].
  exists result, (tagged_records env f i).
  split; [ exact Hr | split ].
  - unfold mapi. rewrite nth_error_mapi_from, Hf. reflexivity.
  - rewrite Htag. apply with_sourceFile_copies.
Qed.

Lemma env_two_three_succeeds :
  all_succeed env_two_three (files (queue ["A.pdf"; "B.pdf"])).
Proof.
  intros [| [| [| i]]] f H; try discriminate H;
    injection H as <-; eexists; reflexivity.
Qed.

Lemma processStatements_concatenates_witness :
  let s' := processStatements env_two_three (queue ["A.pdf"; "B.pdf"]) in
  List.length (transactions s') = 5%nat
  /\ map Transaction.sourceFile (transactions s')
     = ["A.pdf"; "A.pdf"; "B.pdf"; "B.pdf"; "B.pdf"]
  /\ processedCount s' = 2%nat.
Proof.
  assert (Hne : files (queue ["A.pdf"; "B.pdf"]) <> []) by discriminate.
  destruct (processStatements_concatenates env_two_three
              (queue ["A.pdf"; "B.pdf"]) env_two_three_succeeds
              (or_introl Hne))
    as [Hts [_ [Hcount _]]].
  cbv zeta. rewrite Hts, Hcount.
  repeat split; reflexivity.
Defined.

(** The two-document scenario: A yields two records and B three. *)
Lemma two_documents_scenario (env : Env) (s : AppState) (A B : FileData.t)
    (rA rB : list Transaction.t) :
  files s = [A; B] ->
  extractTransactions env 0 [A] = inr rA ->
  extractTransactions env 1 [B] = inr rB ->
  List.length rA = 2%nat -> List.length rB = 3%nat ->
  let ts := transactions (processStatements env s) in
  List.length ts = 5%nat
  /\ map Transaction.sourceFile (firstn 2 ts) = [FileData.name A; FileData.name A]
  /\ map Transaction.sourceFile (skipn 2 ts)
     = [FileData.name B; FileData.name B; FileData.name B]
  /\ ts = (map (with_sourceFile (FileData.name A)) rA
           ++ map (with_sourceFile (FileData.name B)) rB)%list.
Proof.
  intros Hfs HA HB HlA HlB.
  assert (Hne : files s <> []) by (rewrite Hfs; discriminate).
  assert (Hall : all_succeed env (files s)).
  { rewrite Hfs. intros [| [| [| i]]] f H; try discriminate H;
      injection H as <-; eexists; eassumption. }
  rewrite (processStatements_success env s Hne Hall). simpl.
  rewrite Hfs. unfold consolidated, consolidated_from, tagged_records. simpl.
  rewrite HA, HB, app_nil_r.
  destruct rA as [| a1 [| a2 [| a3 rA]]]; try discriminate HlA.
  destruct rB as [| b1 [| b2 [| b3 [| b4 rB]]]]; try discriminate HlB.
  repeat split; reflexivity.
Qed.

(** C2. When the extraction of some document of the queue throws, the run
    ends with no transactions in the state, no document marked as in
    progress, the ERROR status and an error message; over the whole run the
    setters surface one error message and one ERROR status and never show a
    non-empty transaction list; and no document after the first failing
    one is started.  The message is not empty: it is the [message] of the
    exception thrown for the first document that fails when that is a
    non-empty string, and the fallback text of the [catch] block
    otherwise. *)
Theorem processStatements_fail_fast (env : Env) (s : AppState) (j : nat)
    (f : FileData.t) (err : JsError.t) :
  nth_error (files s) j = Some f ->
  extractTransactions env j [f] = inl err ->
  let log := processStatements_effects env (files s) in
  let s' := processStatements env s in
  transactions s' = []
  /\ currentlyProcessingIdx s' = None
  /\ status s' = ERROR
  /\ List.length (filter is_error_message log) = 1%nat
  /\ List.length (filter is_error_status log) = 1%nat
  /\ filter exposes_transactions log = []
  /\ exists k g first,
       (k <= j)%nat
       /\ nth_error (files s) k = Some g
       /\ extractTransactions env k [g] = inl first
       /\ error s' = Some (message_or_default first)
       /\ processedCount s' = k
       /\ (forall x, In (setCurrentlyProcessingIdx (Some x)) log -> (x <= k)%nat)
       /\ (forall i h, (i < k)%nat -> nth_error (files s) i = Some h ->
                       exists result, extractTransactions env i [h] = inr result)
       /\ exists m : string,
            error s' = Some m
            /\ m <> ""
            /\ (JsError.message first = Some m
                \/ ((JsError.message first = None
                     \/ JsError.message first = Some "")
                    /\ m = "Failed to extract data. Please ensure the files are valid PDFs or images."))
            /\ filter is_error_message log = [setError (Some m)]
            /\ filter is_error_status log = [setStatus ERROR].
Proof.
  intros Hj Herr log s'.
  assert (Hfail : ~ succeeds env j f).
  { intros [result Hr]. congruence. }
  destruct (processStatements_first_failure env s j f Hj Hfail)
    as [k [g [first [Hk [Hg [Hfirst [Hmin [Hlog Hs']]]]]]]].
  unfold log, s'. rewrite Hlog, Hs'. simpl.
  split; [ reflexivity | split; [ reflexivity | split; [ reflexivity |] ] ].
  split; [ rewrite filter_app, progress_log_quiet; reflexivity |].
  split; [ rewrite filter_app, progress_log_quiet; reflexivity |].
  split; [ rewrite filter_app, progress_log_quiet; reflexivity |].
  exists k, g, first.
  split; [ exact Hk | split; [ exact Hg | split; [ exact Hfirst |] ] ].
  split; [ reflexivity | split; [ reflexivity | split ] ].
  - intros x Hx.
    destruct Hx as [Hx | [Hx | [Hx | [Hx | Hx]]]]; try discriminate Hx.
    apply in_app_or in Hx. destruct Hx as [Hx | Hx].
    + apply progress_log_indices in Hx. lia.
    + simpl in Hx. destruct Hx as [Hx | [Hx | [Hx | [Hx | []]]]];
        try discriminate Hx.
      injection Hx as ->. apply Nat.le_refl.
  - split; [ exact Hmin |].
    destruct (message_or_default_cases first) as [Hne Hfrom].
    exists (message_or_default first).
    split; [ reflexivity | split; [ exact Hne | split; [ exact Hfrom |] ] ].
    split; rewrite filter_app, progress_log_quiet; reflexivity.
Qed.

Lemma processStatements_fail_fast_witness :
  let s := queue ["A.pdf"; "B.pdf"; "C.pdf"] in
  let s' := processStatements env_two_three s in
  transactions s' = [] /\ currentlyProcessingIdx s' = None
  /\ status s' = ERROR
  /\ List.length (filter is_error_message
                    (processStatements_effects env_two_three (files s)))
     = 1%nat.
Proof.
  destruct (processStatements_fail_fast env_two_three
              (queue ["A.pdf"; "B.pdf"; "C.pdf"]) 2 (doc "C.pdf")
              (JsError.mk (Some "quota exceeded")) eq_refl eq_refl)
    as [H1 [H2 [H3 [H4 _]]]].
  split; [ exact H1 | split; [ exact H2 | split; [ exact H3 | exact H4 ] ] ].
Defined.

(** C8, as stated, fails: when the clock reads the same millisecond while
    two documents are stamped, their first records get the same
    identifier. *)
Lemma ids_collide_on_frozen_clock :
  ~ batch_ids_distinct env_frozen_clock (queue ["A.pdf"; "B.pdf"]).
Proof.
  unfold batch_ids_distinct. intro H.
  change (NoDup ["1700000000000-0"; "1700000000000-0"]) in H.
  inversion H as [| x l Hin _]. apply Hin. now left.
Qed.

(** C8, amended. The identifiers within the result of one document are
    always pairwise distinct; those of the list a run leaves in the state
    are pairwise distinct whenever no clock reading taken for one document
    is also taken for another. *)
Theorem ids_distinct_when_clock_separates (env : Env) (s : AppState) :
  (forall i f, NoDup (map Transaction.id (tagged_records env f i)))
  /\ (files s <> [] ->
      clock_separates_documents env (List.length (files s)) ->
      batch_ids_distinct env s).
Proof.
  split; [ intros i f; apply tagged_ids_NoDup |].
  intros Hne Hclock. unfold batch_ids_distinct.
  destruct (processStatements_outcome env (files s))
    as [Hall | [j [f [Hj Hfail]]]].
  - rewrite (processStatements_success env s Hne Hall). simpl.
    now apply consolidated_ids_NoDup.
  - destruct (processStatements_failure env s j f Hj Hfail)
      as [k [g [first [_ [_ [_ [_ ->]]]]]]].
    constructor.
Qed.

Lemma ids_distinct_when_clock_separates_witness :
  batch_ids_distinct env_two_three (queue ["A.pdf"; "B.pdf"]).
Proof.
  apply (proj2 (ids_distinct_when_clock_separates env_two_three
                  (queue ["A.pdf"; "B.pdf"]))).
  - discriminate.
  - intros i i' j j' [Hi _]. unfold env_two_three. cbn [Date_now]. lia.
Defined.

(** ** CSV export *)

Lemma double_quotes_app (a b : string) :
  double_quotes (a ++ b) = double_quotes a ++ double_quotes b.
Proof.
  induction a as [| c a IH]; simpl.
  - reflexivity.
  - destruct (Ascii.eqb c (ascii_of_nat 34)); simpl; now rewrite IH.
Qed.

Lemma double_quotes_dquote : double_quotes dquote = dquote ++ dquote.
Proof.
  reflexivity.
Qed.


Lemma or_empty_id (s : string) : or_empty s = s.
Proof.
  destruct s; reflexivity.
Qed.

(** With nothing in scope the export returns before producing anything. *)
Lemma exportToCSV_empty (Number_toString : Q -> string) :
  exportToCSV Number_toString [] = None.
Proof.
  reflexivity.
Qed.



(** The export scenario, for any printer that renders [-4.5] as such. *)
Lemma coffee_scenario (Number_toString : Q -> string) :
  Number_toString (-4.5) = "-4.5" ->
  exportToCSV Number_toString [coffee]
  = Some ("Date,Description,Amount,Category,Notes,Source" ++ newline
            ++ coffee_row)
  /\ csv_row Number_toString coffee = coffee_row.
Proof.
  intro H. unfold exportToCSV, csv_lines, csv_row, csv_fields. simpl.
  rewrite H. split; reflexivity.
Qed.


(** * Further properties *)

(** ** The summary: signs *)



(** ** The summary: colours *)

Lemma COLORS_NoDup : NoDup COLORS.
Proof.
  unfold COLORS.
  repeat (constructor; [ simpl; intuition discriminate |]).
  constructor.
Qed.

Lemma colors_mapi_from (T : Q) (es : list (string * Q)) (i : nat) :
  map CategoryDatum.color (mapi_from i (to_datum T) es)
  = map palette (seq i (List.length es)).
Proof.
  revert i. induction es as [| [k v] es IH]; intro i; simpl.
  - reflexivity.
  - now rewrite IH.
Qed.

Lemma palette_prefix (n : nat) :
  (n <= 8)%nat -> map palette (seq 0 n) = firstn n COLORS.
Proof.
  intro H.
  do 9 (destruct n as [| n]; [ reflexivity |]). lia.
Qed.

Lemma palette_in_COLORS (i : nat) : In (palette i) COLORS.
Proof.
  unfold palette. apply nth_In.
  apply Nat.mod_upper_bound. discriminate.
Qed.

Lemma categoryData_colors (ts : list Transaction.t) :
  Permutation (map CategoryDatum.color (Summary.categoryData (summary ts)))
              (map palette
                   (seq 0 (List.length (Summary.categoryData (summary ts))))).
Proof.
  rewrite (Permutation_length (categoryData_Permutation ts)).
  rewrite (Permutation_map CategoryDatum.color (categoryData_Permutation ts)).
  unfold unsorted_categoryData, mapi. cbv zeta.
  rewrite colors_mapi_from.
  unfold mapi_from at 1. rewrite <- (length_map CategoryDatum.color).
  rewrite colors_mapi_from, length_map, length_seq.
  apply Permutation_refl.
Qed.

(** X7. Every colour of [categoryData] is one of the eight of the palette;
    the colours are pairwise distinct exactly when there are at most eight
    categories. *)
Theorem categoryData_colors_distinct (ts : list Transaction.t) :
  Forall (fun e => In (CategoryDatum.color e) COLORS)
         (Summary.categoryData (summary ts))
  /\ (NoDup (map CategoryDatum.color (Summary.categoryData (summary ts)))
      <-> (List.length (Summary.categoryData (summary ts)) <= 8)%nat).
Proof.
  assert (Hin : Forall (fun e => In (CategoryDatum.color e) COLORS)
                       (Summary.categoryData (summary ts))).
  { apply Forall_forall. intros e He.
    destruct (categoryData_origin ts e He) as [i [k [v [_ ->]]]].
    apply palette_in_COLORS. }
  split; [ exact Hin | split ].
  - intro Hnd.
    rewrite <- (length_map CategoryDatum.color).
    change 8%nat with (List.length COLORS).
    apply NoDup_incl_length; [ exact Hnd |].
    intros c Hc. apply in_map_iff in Hc. destruct Hc as [e [<- He]].
    rewrite Forall_forall in Hin. now apply Hin.
  - intro Hle.
    apply (Permutation_NoDup (Permutation_sym (categoryData_colors ts))).
    rewrite (palette_prefix _ Hle).
    pose proof COLORS_NoDup as H.
    rewrite <- (firstn_skipn
                  (List.length (Summary.categoryData (summary ts))) COLORS) in H.
    exact (NoDup_app_remove_r _ _ H).
Qed.

(** ** Lists of labels *)

Lemma existsb_eqb_In (c : string) (seen : list string) :
  existsb (String.eqb c) seen = true <-> In c seen.
Proof.
  rewrite existsb_exists. split.
  - intros [x [Hx E]]. apply String.eqb_eq in E. now subst.
  - intro H. exists c. split; [ exact H | apply String.eqb_refl ].
Qed.

(** ** The scope of the dashboard and the per-file cards *)

Lemma filter_concat_mapi_from {A B : Type} (p : B -> bool) (g : A -> nat -> list B)
    (xs : list A) :
  forall i,
    filter p (List.concat (mapi_from i g xs))
    = List.concat (mapi_from i (fun x j => filter p (g x j)) xs).
Proof.
  induction xs as [| x xs IH]; intro i; simpl.
  - reflexivity.
  - now rewrite filter_app, IH.
Qed.

Lemma filter_tagged (env : Env) (f : FileData.t) (i : nat) (n : string) :
  filter (fun t => String.eqb (Transaction.sourceFile t) n)
         (tagged_records env f i)
  = if String.eqb (FileData.name f) n then tagged_records env f i else [].
Proof.
  pose proof (sourceFile_tagged env f i) as H.
  induction (tagged_records env f i) as [| t r IH].
  - now destruct (String.eqb (FileData.name f) n).
  - inversion H as [| x l Ht Hr]; subst. simpl. rewrite Ht.
    specialize (IH Hr).
    destruct (String.eqb (FileData.name f) n); now rewrite IH.
Qed.

Lemma scoped_consolidated (env : Env) (fs : list FileData.t) (n : string) :
  forall i,
    filter (fun t => String.eqb (Transaction.sourceFile t) n)
           (consolidated_from env i fs)
    = List.concat
        (mapi_from i
           (fun f j => if String.eqb (FileData.name f) n
                       then tagged_records env f j else [])
           fs).
Proof.
  intro i. unfold consolidated_from. rewrite filter_concat_mapi_from.
  revert i. induction fs as [| f fs IH]; intro i; simpl.
  - reflexivity.
  - now rewrite filter_tagged, IH.
Qed.

Lemma scoped_absent (env : Env) (fs : list FileData.t) (n : string) :
  ~ In n (map FileData.name fs) ->
  forall i,
    List.concat
      (mapi_from i
         (fun f j => if String.eqb (FileData.name f) n
                     then tagged_records env f j else [])
         fs) = [].
Proof.
  induction fs as [| f fs IH]; intros Hn i; simpl.
  - reflexivity.
  - simpl in Hn.
    destruct (String.eqb (FileData.name f) n) eqn:E.
    + apply String.eqb_eq in E. tauto.
    + simpl. apply IH. tauto.
Qed.

Lemma scoped_single (env : Env) (fs : list FileData.t) :
  NoDup (map FileData.name fs) ->
  forall i k f,
    nth_error fs k = Some f ->
    List.concat
      (mapi_from i
         (fun f' j => if String.eqb (FileData.name f') (FileData.name f)
                      then tagged_records env f' j else [])
         fs)
    = tagged_records env f (i + k).
Proof.
  induction fs as [| f0 fs IH]; intros Hnd i k f Hk.
  - destruct k; discriminate.
  - simpl in Hnd. inversion Hnd as [| x l Hnotin Hnd']; subst.
    destruct k as [| k]; simpl in Hk |- *.
    + injection Hk as ->. rewrite String.eqb_refl, Nat.add_0_r.
      rewrite (scoped_absent env fs (FileData.name f) Hnotin).
      apply app_nil_r.
    + destruct (String.eqb (FileData.name f0) (FileData.name f)) eqn:E.
      * apply String.eqb_eq in E. exfalso. apply Hnotin. rewrite E.
        apply in_map. exact (nth_error_In _ _ Hk).
      * simpl. rewrite (IH Hnd' (S i) k f Hk).
        now rewrite Nat.add_succ_r.
Qed.

(** X10. After a batch whose extractions all returned, selecting a name
    other than [all] shows the records of the documents of that name, one
    document after the other in submission order; when the names of the
    queue are pairwise distinct these are the records of that one
    document; the view [all] shows the whole list. *)
Theorem scope_after_batch (env : Env) (s : AppState) :
  files s <> [] ->
  all_succeed env (files s) ->
  let ts := transactions (processStatements env s) in
  (forall n, n <> "all" ->
     currentTransactions ts n
     = List.concat
         (mapi (fun f i => if String.eqb (FileData.name f) n
                           then tagged_records env f i else [])
               (files s)))
  /\ (NoDup (map FileData.name (files s)) ->
      forall i f, nth_error (files s) i = Some f ->
        FileData.name f <> "all" ->
        currentTransactions ts (FileData.name f) = tagged_records env f i)
  /\ currentTransactions ts "all" = ts.
Proof.
  intros Hne Hall ts. unfold ts.
  rewrite (processStatements_success env s Hne Hall). simpl.
  assert (Hscope : forall n, n <> "all" ->
     currentTransactions (consolidated env (files s)) n
     = List.concat
         (mapi (fun f i => if String.eqb (FileData.name f) n
                           then tagged_records env f i else [])
               (files s))).
  { intros n Hn. unfold currentTransactions.
    apply String.eqb_neq in Hn. rewrite Hn.
    apply scoped_consolidated. }
  split; [ exact Hscope | split ].
  - intros Hnd i f Hi Hn.
    rewrite (Hscope _ Hn). exact (scoped_single env (files s) Hnd 0 i f Hi).
  - reflexivity.
Qed.

Lemma scope_after_batch_witness :
  map Transaction.id
      (currentTransactions
         (transactions (processStatements env_two_three
                          (queue ["A.pdf"; "B.pdf"])))
         "B.pdf")
  = ["1700000001000-0"; "1700000001000-1"; "1700000001000-2"].
Proof.
  assert (Hne : files (queue ["A.pdf"; "B.pdf"]) <> []) by discriminate.
  destruct (scope_after_batch env_two_three (queue ["A.pdf"; "B.pdf"])
              Hne env_two_three_succeeds) as [_ [H _]].
  assert (Hnd : NoDup (map FileData.name (files (queue ["A.pdf"; "B.pdf"])))).
  { repeat constructor; simpl; intuition discriminate. }
  assert (Hn : FileData.name (doc "B.pdf") <> "all") by discriminate.
  pose proof (H Hnd 1%nat (doc "B.pdf") eq_refl Hn) as HB.
  change (FileData.name (doc "B.pdf")) with "B.pdf" in HB.
  rewrite HB. reflexivity.
Defined.

(** ** The orchestrator: the shape of a run *)

Lemma processStatements_success_log (env : Env) (fs : list FileData.t) :
  fs <> [] -> all_succeed env fs ->
  processStatements_effects env fs
  = ([setStatus ANALYZING; setError None; setProcessedCount 0;
      setTransactions []]
     ++ progress_log 0 (List.length fs)
     ++ [setTransactions (consolidated env fs); setStatus SUCCESS;
         setCurrentlyProcessingIdx None; setSelectedView "all"])%list.
Proof.
  intros Hne Hall. unfold processStatements_effects.
  pose proof (process_loop_spec env fs 0 []) as Hspec.
  destruct fs as [| f rest]; [ congruence |].
  destruct (process_loop env (f :: rest) 0 []) as [log [err | all]].
  - exfalso. destruct Hspec as [k [g [H1 [H2 _]]]].
    destruct (Hall k g H1) as [result Hr]. simpl in H2. congruence.
  - destruct Hspec as [_ [-> ->]]. reflexivity.
Qed.

(** The state once the four opening setters and [k] successful iterations
    are done. *)
Lemma state_after_progress (s : AppState) (k : nat) :
  run_effects
    ([setStatus ANALYZING; setError None; setProcessedCount 0;
      setTransactions []] ++ progress_log 0 k)%list s
  = mkAppState (files s) [] ANALYZING None (selectedView s) k
      (match k with
       | O => currentlyProcessingIdx s
       | S k' => Some k'
       end).
Proof.
  rewrite run_effects_app, run_progress_log. destruct k; reflexivity.
Qed.

Lemma counter_values_app (l1 l2 : list Effect) :
  counter_values (l1 ++ l2) = (counter_values l1 ++ counter_values l2)%list.
Proof.
  induction l1 as [| e l1 IH]; simpl.
  - reflexivity.
  - destruct e; simpl; now rewrite IH.
Qed.

Lemma counter_values_progress (n : nat) :
  forall i, counter_values (progress_log i n) = seq (S i) n.
Proof.
  induction n as [| n IH]; intro i; simpl.
  - reflexivity.
  - now rewrite IH, Nat.add_1_r.
Qed.

(** X12. Over one run on a non-empty queue the completed counter is set to
    0, 1, 2, ... in turn, up to the value it has at the end, which is at
    most the number of documents. *)
Theorem counter_counts_up (env : Env) (s : AppState) :
  files s <> [] ->
  counter_values (processStatements_effects env (files s))
  = seq 0 (S (processedCount (processStatements env s)))
  /\ (processedCount (processStatements env s) <= List.length (files s))%nat.
Proof.
  intro Hne.
  destruct (processStatements_outcome env (files s))
    as [Hall | [j [f [Hj Hfail]]]].
  - rewrite (processStatements_success_log env (files s) Hne Hall).
    rewrite (processStatements_success env s Hne Hall).
    rewrite !counter_values_app, counter_values_progress. simpl.
    split; [ now rewrite app_nil_r | apply Nat.le_refl ].
  - destruct (processStatements_failure env s j f Hj Hfail)
      as [k [g [first [Hk [Hg [_ [-> ->]]]]]]].
    rewrite !counter_values_app, counter_values_progress. simpl.
    split; [ now rewrite app_nil_r |].
    apply Nat.lt_le_incl. apply nth_error_Some. congruence.
Qed.

Lemma counter_counts_up_witness :
  counter_values
    (processStatements_effects env_two_three
       (files (queue ["A.pdf"; "B.pdf"; "C.pdf"])))
  = [0; 1; 2]%nat.
Proof.
  rewrite (proj1 (counter_counts_up env_two_three
                    (queue ["A.pdf"; "B.pdf"; "C.pdf"])
                    ltac:(discriminate))).
  reflexivity.
Defined.

(** X13. A run on a non-empty queue leaves the queue as it was and no
    document marked as in progress, and ends in SUCCESS or in ERROR: in
    SUCCESS exactly when every extraction returned, then with no error
    message, the view [all] and the counter at the number of documents; in
    ERROR with a message, the view untouched and the counter below the
    number of documents. *)
Theorem run_outcome (env : Env) (s : AppState) :
  files s <> [] ->
  let s' := processStatements env s in
  files s' = files s
  /\ currentlyProcessingIdx s' = None
  /\ (status s' = SUCCESS <-> all_succeed env (files s))
  /\ (status s' = SUCCESS
      /\ error s' = None /\ selectedView s' = "all"
      /\ processedCount s' = List.length (files s)
      \/ status s' = ERROR
         /\ error s' <> None /\ selectedView s' = selectedView s
         /\ transactions s' = []
         /\ (processedCount s' < List.length (files s))%nat).
Proof.
  intros Hne s'. unfold s'.
  destruct (processStatements_outcome env (files s))
    as [Hall | [j [f [Hj Hfail]]]].
  - rewrite (processStatements_success env s Hne Hall). simpl.
    split; [ reflexivity | split; [ reflexivity | split ] ].
    + split; [ intros _; exact Hall | reflexivity ].
    + left. repeat split.
  - destruct (processStatements_failure env s j f Hj Hfail)
      as [k [g [first [Hk [Hg [_ [_ ->]]]]]]].
    simpl. split; [ reflexivity | split; [ reflexivity | split ] ].
    + split; [ discriminate |].
      intro Hall. exfalso. apply Hfail. exact (Hall j f Hj).
    + right. split; [ reflexivity | split; [ discriminate |] ].
      split; [ reflexivity | split; [ reflexivity |] ].
      apply nth_error_Some. congruence.
Qed.

Lemma run_outcome_witness :
  status (processStatements env_two_three (queue ["A.pdf"; "B.pdf"; "C.pdf"]))
  = ERROR
  /\ files (processStatements env_two_three (queue ["A.pdf"; "B.pdf"; "C.pdf"]))
     = files (queue ["A.pdf"; "B.pdf"; "C.pdf"]).
Proof.
  destruct (run_outcome env_two_three (queue ["A.pdf"; "B.pdf"; "C.pdf"])
              ltac:(discriminate)) as [Hf _].
  split; [ reflexivity | exact Hf ].
Defined.

Lemma process_loop_agree (env env' : Env) (todo : list FileData.t) :
  forall (i : nat) (acc : list Transaction.t) (k : nat) (f : FileData.t)
         (err : JsError.t),
    nth_error todo k = Some f ->
    extractTransactions env (i + k) [f] = inl err ->
    agree_up_to env env' (i + k) ->
    process_loop env todo i acc = process_loop env' todo i acc.
Proof.
  induction todo as [| f0 rest IH]; intros i acc k f err Hk Herr Hag.
  - destruct k; discriminate.
  - simpl. rewrite <- (Hag i [f0]) by lia.
    destruct k as [| k]; simpl in Hk.
    + injection Hk as ->. rewrite Nat.add_0_r in Herr. now rewrite Herr.
    + destruct (extractTransactions env i [f0]) as [e0 | result];
        [ reflexivity |].
      rewrite (IH (S i) _ k f err Hk); [ reflexivity | |].
      * now rewrite Nat.add_succ_l, <- Nat.add_succ_r.
      * now rewrite Nat.add_succ_l, <- Nat.add_succ_r.
Qed.

(** X14. A run never looks past the first failure: when the extraction of
    document [k] throws, two worlds that answer the calls up to [k] alike
    give the same setter calls and the same final state, whatever they
    would answer for the later documents. *)
Theorem run_ignores_later_documents (env env' : Env) (s : AppState)
    (k : nat) (f : FileData.t) (err : JsError.t) :
  nth_error (files s) k = Some f ->
  extractTransactions env k [f] = inl err ->
  agree_up_to env env' k ->
  processStatements_effects env (files s)
  = processStatements_effects env' (files s)
  /\ processStatements env s = processStatements env' s.
Proof.
  intros Hk Herr Hag.
  assert (H : processStatements_effects env (files s)
              = processStatements_effects env' (files s)).
  { unfold processStatements_effects.
    destruct (files s) as [| f0 rest] eqn:Hfs; [ reflexivity |].
    now rewrite (process_loop_agree env env' (f0 :: rest) 0 [] k f err Hk Herr Hag). }
  split; [ exact H |]. unfold processStatements. now rewrite H.
Qed.

(** A world that answers like [env_two_three] for the first two documents
    fails on the third as well, and would return a record for a fourth. *)
Lemma run_ignores_later_documents_witness :
  let env' :=
    mkEnv (fun call fs =>
             match call with
             | 3%nat => Returns [raw (-7) "Late"]
             | _ => generateContent env_two_three call fs
             end)
          (Date_now env_two_three) in
  let s := queue ["A.pdf"; "B.pdf"; "C.pdf"; "D.pdf"] in
  processStatements env_two_three s = processStatements env' s.
Proof.
  cbv zeta.
  apply (run_ignores_later_documents env_two_three _
           (queue ["A.pdf"; "B.pdf"; "C.pdf"; "D.pdf"]) 2 (doc "C.pdf")
           (JsError.mk (Some "quota exceeded")) eq_refl eq_refl).
  intros i fs Hi.
  destruct i as [| [| [| i]]]; [ reflexivity | reflexivity | reflexivity | lia ].
Defined.

(** X15. A run on a non-empty queue replaces what was there: two states
    with the same queue and the same selected view end in the same state,
    whatever transactions, status, error, counter and marker they had. *)
Theorem run_replaces_prior_state (env : Env) (s1 s2 : AppState) :
  files s1 <> [] ->
  files s1 = files s2 ->
  selectedView s1 = selectedView s2 ->
  processStatements env s1 = processStatements env s2.
Proof.
  intros Hne Hfs Hview.
  assert (Hne2 : files s2 <> []) by congruence.
  destruct (processStatements_outcome env (files s1))
    as [Hall | [j [f [Hj Hfail]]]].
  - rewrite (processStatements_success env s1 Hne Hall).
    rewrite Hfs in Hall.
    rewrite (processStatements_success env s2 Hne2 Hall).
    now rewrite Hfs.
  - destruct (processStatements_failure env s1 j f Hj Hfail)
      as [k [g [first [_ [_ [_ [Hlog ->]]]]]]].
    unfold processStatements. rewrite <- Hfs, Hlog.
    change ([setStatus ANALYZING; setError None; setProcessedCount 0;
             setTransactions []]
            ++ progress_log 0 k
            ++ [setCurrentlyProcessingIdx (Some k)]
            ++ [setError (Some (message_or_default first)); setStatus ERROR;
                setCurrentlyProcessingIdx None])%list
      with (([setStatus ANALYZING; setError None; setProcessedCount 0;
              setTransactions []]
             ++ progress_log 0 k)
            ++ [setCurrentlyProcessingIdx (Some k);
                setError (Some (message_or_default first)); setStatus ERROR;
                setCurrentlyProcessingIdx None])%list.
    rewrite run_effects_app, state_after_progress. simpl.
    now rewrite Hfs, Hview.
Qed.

Lemma run_replaces_prior_state_witness :
  processStatements env_two_three (queue ["A.pdf"; "B.pdf"])
  = processStatements env_two_three
      (processStatements env_two_three (queue ["A.pdf"; "B.pdf"])).
Proof.
  apply run_replaces_prior_state; [ discriminate | reflexivity | reflexivity ].
Defined.

(** ** The orchestrator: the states a run goes through *)

Lemma steps_app (l1 l2 : list Effect) (s : AppState) :
  steps (l1 ++ l2) s = (steps l1 s ++ steps l2 (run_effects l1 s))%list.
Proof.
  revert s. induction l1 as [| e l1 IH]; intro s; simpl.
  - reflexivity.
  - now rewrite IH.
Qed.

Lemma steps_progress_log (n : nat) :
  forall (i : nat) (s0 : AppState) (e : Effect) (st : AppState),
    In (e, st) (steps (progress_log i n) s0) ->
    processedCount s0 = i ->
    files st = files s0 /\ transactions st = transactions s0
    /\ status st = status s0 /\ error st = error s0
    /\ (i <= processedCount st <= i + n)%nat
    /\ forall j, e = setCurrentlyProcessingIdx (Some j) ->
         processedCount st = j /\ currentlyProcessingIdx st = Some j
         /\ (i <= j < i + n)%nat.
Proof.
  induction n as [| n IH]; intros i s0 e st Hin Hcount.
  - destruct Hin.
  - simpl in Hin. destruct Hin as [Hin | [Hin | Hin]].
    + injection Hin as <- <-. simpl.
      repeat split; try lia.
      * injection H as <-. exact Hcount.
      * injection H as <-. reflexivity.
      * injection H as <-. lia.
      * injection H as <-. lia.
    + injection Hin as <- <-. simpl.
      repeat split; try lia; discriminate.
    + apply IH in Hin; [| simpl; lia ].
      simpl in Hin. destruct Hin as [H1 [H2 [H3 [H4 [H5 H6]]]]].
      repeat split; try assumption; try lia.
      * destruct (H6 j H) as [H7 _]. exact H7.
      * destruct (H6 j H) as [_ [H7 _]]. exact H7.
      * destruct (H6 j H) as [_ [_ H7]]. lia.
      * destruct (H6 j H) as [_ [_ H7]]. lia.
Qed.

(** The steps of a run, split into the opening setters, the iterations and
    the closing setters. *)
Lemma run_steps (env : Env) (s : AppState) :
  files s <> [] ->
  exists k closing,
    (k <= List.length (files s))%nat
    /\ steps (processStatements_effects env (files s)) s
       = (steps [setStatus ANALYZING; setError None; setProcessedCount 0;
                 setTransactions []] s
          ++ steps (progress_log 0 k)
               (mkAppState (files s) [] ANALYZING None (selectedView s) 0
                           (currentlyProcessingIdx s))
          ++ steps closing
               (mkAppState (files s) [] ANALYZING None (selectedView s) k
                           (match k with
                            | O => currentlyProcessingIdx s
                            | S k' => Some k'
                            end)))%list
    /\ (closing = [setTransactions (consolidated env (files s));
                   setStatus SUCCESS; setCurrentlyProcessingIdx None;
                   setSelectedView "all"]
        /\ k = List.length (files s)
        \/ (exists first,
               closing = [setCurrentlyProcessingIdx (Some k);
                          setError (Some (message_or_default first));
                          setStatus ERROR; setCurrentlyProcessingIdx None])
           /\ (k < List.length (files s))%nat).
Proof.
  intro Hne.
  assert (Hshape : forall k closing,
    processStatements_effects env (files s)
    = ([setStatus ANALYZING; setError None; setProcessedCount 0;
        setTransactions []] ++ progress_log 0 k ++ closing)%list ->
    steps (processStatements_effects env (files s)) s
    = (steps [setStatus ANALYZING; setError None; setProcessedCount 0;
              setTransactions []] s
       ++ steps (progress_log 0 k)
            (mkAppState (files s) [] ANALYZING None (selectedView s) 0
                        (currentlyProcessingIdx s))
       ++ steps closing
            (mkAppState (files s) [] ANALYZING None (selectedView s) k
                        (match k with
                         | O => currentlyProcessingIdx s
                         | S k' => Some k'
                         end)))%list).
  { intros k closing ->.
    rewrite steps_app. f_equal.
    rewrite steps_app. f_equal.
    rewrite <- run_effects_app, state_after_progress. reflexivity. }
  destruct (processStatements_outcome env (files s))
    as [Hall | [j [f [Hj Hfail]]]].
  - exists (List.length (files s)), 
      [setTransactions (consolidated env (files s)); setStatus SUCCESS;
       setCurrentlyProcessingIdx None; setSelectedView "all"].
    split; [ apply Nat.le_refl | split ].
    + apply Hshape. now apply processStatements_success_log.
    + left. split; reflexivity.
  - destruct (processStatements_failure env s j f Hj Hfail)
      as [k [g [first [Hk [Hg [_ [Hlog _]]]]]]].
    assert (Hlt : (k < List.length (files s))%nat).
    { apply nth_error_Some. congruence. }
    exists k, [setCurrentlyProcessingIdx (Some k);
               setError (Some (message_or_default first));
               setStatus ERROR; setCurrentlyProcessingIdx None].
    split; [ lia | split ].
    + apply Hshape. exact Hlog.
    + right. split; [ now exists first | exact Hlt ].
Qed.

(** X16. Whenever a run marks a document as in progress, the documents
    shown as done are exactly those before it in the queue and it is the
    only one shown as current. *)
Theorem marker_matches_counter (env : Env) (s : AppState) (i : nat)
    (st : AppState) :
  files s <> [] ->
  In (setCurrentlyProcessingIdx (Some i), st)
     (steps (processStatements_effects env (files s)) s) ->
  (i < List.length (files s))%nat
  /\ (forall idx, isDone st idx = Nat.ltb idx i)
  /\ (forall idx, isCurrent st idx = Nat.eqb idx i).
Proof.
  intros Hne Hin.
  assert (H : processedCount st = i /\ currentlyProcessingIdx st = Some i
              /\ (i < List.length (files s))%nat).
  { destruct (run_steps env s Hne) as [k [closing [Hk [Hsteps Hclosing]]]].
    rewrite Hsteps in Hin.
    apply in_app_or in Hin. destruct Hin as [Hin | Hin].
    - simpl in Hin.
      destruct Hin as [Hin | [Hin | [Hin | [Hin | []]]]]; discriminate Hin.
    - apply in_app_or in Hin. destruct Hin as [Hin | Hin].
      + apply steps_progress_log in Hin; [| reflexivity ].
        destruct Hin as [_ [_ [_ [_ [_ H]]]]].
        destruct (H i eq_refl) as [H1 [H2 H3]].
        repeat split; try assumption. lia.
      + destruct Hclosing as [[-> _] | [[first ->] Hlt]]; simpl in Hin.
        * destruct Hin as [Hin | [Hin | [Hin | [Hin | []]]]]; discriminate Hin.
        * destruct Hin as [Hin | [Hin | [Hin | [Hin | []]]]];
            try discriminate Hin.
          injection Hin as <- <-. simpl. repeat split. exact Hlt. }
  destruct H as [H1 [H2 H3]].
  split; [ exact H3 | split; intro idx ].
  - unfold isDone. now rewrite H1.
  - unfold isCurrent. now rewrite H2.
Qed.

Lemma marker_matches_counter_witness :
  exists st,
    (1 < 3)%nat
    /\ (forall idx, isDone st idx = Nat.ltb idx 1)
    /\ (forall idx, isCurrent st idx = Nat.eqb idx 1).
Proof.
  eexists.
  apply (marker_matches_counter env_two_three
           (queue ["A.pdf"; "B.pdf"; "C.pdf"]) 1);
    [ discriminate |].
  simpl. do 6 right. left. reflexivity.
Defined.

(** X17. In no state a run on a non-empty queue goes through is a partial
    or stale list on display: the status is ANALYZING, or SUCCESS with the
    full consolidated list and the counter at the number of documents, or
    ERROR with no transactions and an error message. *)
Theorem no_partial_list_shown (env : Env) (s : AppState) (e : Effect)
    (st : AppState) :
  files s <> [] ->
  In (e, st) (steps (processStatements_effects env (files s)) s) ->
  status st = ANALYZING
  \/ (status st = SUCCESS
      /\ transactions st = consolidated env (files s)
      /\ processedCount st = List.length (files s))
  \/ (status st = ERROR /\ transactions st = [] /\ error st <> None).
Proof.
  intros Hne Hin.
  destruct (run_steps env s Hne) as [k [closing [Hk [Hsteps Hclosing]]]].
  rewrite Hsteps in Hin.
  apply in_app_or in Hin. destruct Hin as [Hin | Hin].
  - simpl in Hin.
    destruct Hin as [Hin | [Hin | [Hin | [Hin | []]]]];
      injection Hin as <- <-; now left.
  - apply in_app_or in Hin. destruct Hin as [Hin | Hin].
    + apply steps_progress_log in Hin; [| reflexivity ].
      destruct Hin as [_ [_ [H _]]]. now left.
    + destruct Hclosing as [[-> ->] | [[first ->] Hlt]]; simpl in Hin.
      * destruct Hin as [Hin | [Hin | [Hin | [Hin | []]]]];
          injection Hin as <- <-; simpl;
          [ now left | right; left | right; left | right; left ];
          repeat split.
      * destruct Hin as [Hin | [Hin | [Hin | [Hin | []]]]];
          injection Hin as <- <-; simpl;
          [ now left | now left | right; right | right; right ];
          repeat split; discriminate.
Qed.

Lemma no_partial_list_shown_witness :
  let st := processStatements env_two_three (queue ["A.pdf"; "B.pdf"; "C.pdf"]) in
  status st = ANALYZING
  \/ (status st = SUCCESS
      /\ transactions st
         = consolidated env_two_three (files (queue ["A.pdf"; "B.pdf"; "C.pdf"]))
      /\ processedCount st = 3%nat)
  \/ (status st = ERROR /\ transactions st = [] /\ error st <> None).
Proof.
  apply (no_partial_list_shown env_two_three
           (queue ["A.pdf"; "B.pdf"; "C.pdf"])
           (setCurrentlyProcessingIdx None));
    [ discriminate |].
  simpl. do 11 right. left. reflexivity.
Defined.

(** ** The progress bar *)

Lemma Q_of_nat_pos (n : nat) : (0 < n)%nat -> 0 < Q_of_nat n.
Proof.
  intro H. unfold Q_of_nat.
  change 0 with (inject_Z 0). rewrite <- Zlt_Qlt. lia.
Qed.

Lemma Q_of_nat_le (k n : nat) : (k <= n)%nat -> Q_of_nat k <= Q_of_nat n.
Proof.
  intro H. unfold Q_of_nat. rewrite <- Zle_Qle. lia.
Qed.

Lemma share_bounds (k n : nat) :
  (0 < n)%nat -> (k <= n)%nat ->
  0 <= Q_of_nat k / Q_of_nat n * 100
  /\ Q_of_nat k / Q_of_nat n * 100 <= 100
  /\ (Q_of_nat k / Q_of_nat n * 100 == 100 <-> k = n).
Proof.
  intros Hn Hk.
  pose proof (Q_of_nat_pos n Hn) as Hpos.
  assert (Hnz : ~ Q_of_nat n == 0).
  { intro Hz. rewrite Hz in Hpos. exact (Qlt_irrefl _ Hpos). }
  split; [| split ].
  - apply Qmult_le_0_compat; [| discriminate ].
    apply Qle_shift_div_l; [ exact Hpos |].
    setoid_replace (0 * Q_of_nat n) with 0 by ring.
    change 0 with (Q_of_nat 0). apply Q_of_nat_le. lia.
  - setoid_replace 100 with (1 * 100) at 2 by ring.
    apply Qmult_le_compat_r; [| discriminate ].
    apply Qle_shift_div_r; [ exact Hpos |].
    setoid_replace (1 * Q_of_nat n) with (Q_of_nat n) by ring.
    now apply Q_of_nat_le.
  - split.
    + intro H.
      assert (Heq : Q_of_nat k == Q_of_nat n).
      { setoid_replace (Q_of_nat k)
          with (Q_of_nat k / Q_of_nat n * 100 * (Q_of_nat n / 100))
          by (field; exact Hnz).
        rewrite H. field. }
      unfold Q_of_nat in Heq.
      apply (proj1 (inject_Z_injective _ _)) in Heq. lia.
    + intros ->. field. exact Hnz.
Qed.

Lemma progressPercentage_bounds (st : AppState) :
  files st <> [] ->
  (processedCount st <= List.length (files st))%nat ->
  0 <= progressPercentage st
  /\ progressPercentage st <= 100
  /\ (progressPercentage st == 100
      <-> processedCount st = List.length (files st)).
Proof.
  intros Hne Hle. unfold progressPercentage.
  assert (Hn : (0 < List.length (files st))%nat).
  { destruct (files st); [ congruence | simpl; lia ]. }
  apply Nat.ltb_lt in Hn as Hb. rewrite Hb.
  now apply share_bounds.
Qed.

(** X18. From the moment a run on a non-empty queue has reset the counter,
    the progress percentage stays between 0 and 100 in every state the run
    goes through, and it is 100 exactly when the counter has reached the
    number of documents. *)
Theorem progress_stays_in_range (env : Env) (s : AppState) (e : Effect)
    (st : AppState) :
  files s <> [] ->
  In (e, st) (skipn 2 (steps (processStatements_effects env (files s)) s)) ->
  0 <= progressPercentage st
  /\ progressPercentage st <= 100
  /\ (progressPercentage st == 100
      <-> processedCount st = List.length (files st)).
Proof.
  intros Hne Hin.
  assert (H : files st = files s
              /\ (processedCount st <= List.length (files s))%nat).
  { destruct (run_steps env s Hne) as [k [closing [Hk [Hsteps Hclosing]]]].
    rewrite Hsteps in Hin. simpl in Hin.
    destruct Hin as [Hin | [Hin | Hin]].
    - injection Hin as <- <-. simpl. split; [ reflexivity | lia ].
    - injection Hin as <- <-. simpl. split; [ reflexivity | lia ].
    - apply in_app_or in Hin. destruct Hin as [Hin | Hin].
      + apply steps_progress_log in Hin; [| reflexivity ].
        destruct Hin as [H1 [_ [_ [_ [H2 _]]]]]. simpl in H1.
        split; [ exact H1 | lia ].
      + destruct Hclosing as [[-> ->] | [[first ->] Hlt]]; simpl in Hin;
          destruct Hin as [Hin | [Hin | [Hin | [Hin | []]]]];
          injection Hin as <- <-; simpl; split; try reflexivity; lia. }
  destruct H as [Hfs Hle].
  apply progressPercentage_bounds; rewrite Hfs; assumption.
Qed.

Lemma progress_stays_in_range_witness :
  let st := processStatements env_two_three (queue ["A.pdf"; "B.pdf"; "C.pdf"]) in
  0 <= progressPercentage st /\ progressPercentage st <= 100
  /\ (progressPercentage st == 100
      <-> processedCount st = List.length (files st)).
Proof.
  apply (progress_stays_in_range env_two_three
           (queue ["A.pdf"; "B.pdf"; "C.pdf"])
           (setCurrentlyProcessingIdx None));
    [ discriminate |].
  simpl. do 9 right. left. reflexivity.
Defined.

(** ** The queue *)

Lemma filteri_from_skip {A : Type} (xs : list A) :
  forall i index,
    filteri_from i (fun _ j => negb (Nat.eqb j (i + index))) xs
    = (firstn index xs ++ skipn (S index) xs)%list.
Proof.
  induction xs as [| x xs IH]; intros i index.
  - now destruct index.
  - simpl. destruct index as [| index].
    + rewrite Nat.add_0_r, Nat.eqb_refl. simpl.
      clear IH. revert i.
      assert (H : forall j i, (i < j)%nat ->
                    filteri_from j (fun _ j0 => negb (Nat.eqb j0 i)) xs = xs).
      { induction xs as [| y ys IHy]; intros j i Hlt; simpl.
        - reflexivity.
        - destruct (Nat.eqb_spec j i); [ lia |]. simpl.
          rewrite IHy by lia. reflexivity. }
      intro i. apply H. lia.
    + destruct (Nat.eqb_spec i (i + S index)); [ lia |]. simpl.
      f_equal.
      assert (E : (i + S index = S i + index)%nat) by lia.
      rewrite E. apply IH.
Qed.

(** X19. [removeFile] takes the document at the given position out of the
    queue and keeps the others in order; with a position past the end the
    queue is unchanged; nothing else in the state changes.  Removing the
    position at which a document was just appended gives the queue back. *)
Theorem removeFile_spec (index : nat) (s : AppState) :
  files (removeFile index s)
  = (firstn index (files s) ++ skipn (S index) (files s))%list
  /\ ((List.length (files s) <= index)%nat ->
      files (removeFile index s) = files s)
  /\ ((index < List.length (files s))%nat ->
      S (List.length (files (removeFile index s))) = List.length (files s))
  /\ (forall f, files (removeFile (List.length (files s)) (addFiles [f] s))
                = files s)
  /\ transactions (removeFile index s) = transactions s
  /\ status (removeFile index s) = status s
  /\ processedCount (removeFile index s) = processedCount s.
Proof.
  assert (H : forall idx st,
             files (removeFile idx st)
             = (firstn idx (files st) ++ skipn (S idx) (files st))%list).
  { intros idx st. unfold removeFile. simpl.
    exact (filteri_from_skip (files st) 0 idx). }
  split; [ apply H | split; [| split; [| split ] ] ].
  - intro Hle. rewrite H.
    rewrite firstn_all2 by exact Hle.
    rewrite skipn_all2 by lia. apply app_nil_r.
  - intro Hlt. rewrite H, length_app, length_firstn, length_skipn. lia.
  - intro f. rewrite H.
    change (files (addFiles [f] s)) with (files s ++ [f])%list.
    rewrite (skipn_all2 (files s ++ [f])) by (rewrite length_app; simpl; lia).
    rewrite firstn_app, Nat.sub_diag, firstn_all. simpl.
    now rewrite !app_nil_r.
  - repeat split.
Qed.

Lemma removeFile_spec_witness :
  map FileData.name (files (removeFile 1 (queue ["A.pdf"; "B.pdf"; "C.pdf"])))
  = ["A.pdf"; "C.pdf"]
  /\ S (List.length (files (removeFile 1 (queue ["A.pdf"; "B.pdf"; "C.pdf"]))))
     = 3%nat.
Proof.
  destruct (removeFile_spec 1 (queue ["A.pdf"; "B.pdf"; "C.pdf"]))
    as [H1 [_ [H3 _]]].
  split.
  - rewrite H1. reflexivity.
  - apply H3. simpl. lia.
Defined.

(** ** Strings: CSV fields, file names and data URLs *)

Lemma string_app_assoc (a b c : string) : (a ++ b) ++ c = a ++ b ++ c.
Proof.
  induction a as [| x a IH]; simpl.
  - reflexivity.
  - now rewrite IH.
Qed.

Lemma read_quoted_body_escaped (s rest : string) :
  no_leading_quote rest = true ->
  read_quoted_body (double_quotes s ++ dquote ++ rest) = Some (s, rest).
Proof.
  intro Hrest. induction s as [| c s IH].
  - destruct rest as [| c' r]; [ reflexivity |].
    unfold no_leading_quote in Hrest. apply negb_true_iff in Hrest.
    cbn [double_quotes dquote append read_quoted_body].
    rewrite Ascii.eqb_refl, Hrest. reflexivity.
  - cbn [double_quotes].
    destruct (Ascii.eqb c (ascii_of_nat 34)) eqn:E;
      cbn [append read_quoted_body]; rewrite ?E, IH; reflexivity.
Qed.

Lemma read_quoted_escaped (s rest : string) :
  no_leading_quote rest = true ->
  read_quoted (quoted (double_quotes s) ++ rest) = Some (s, rest).
Proof.
  intro Hrest. unfold quoted.
  rewrite !string_app_assoc.
  change (read_quoted_body (double_quotes s ++ dquote ++ rest) = Some (s, rest)).
  now apply read_quoted_body_escaped.
Qed.

(** X21. In a row of the export the description and the notes can be read
    back as they were, whatever characters they contain: read as a quoted
    CSV field, the text that starts at the description gives the
    description and leaves the rest of the row, and likewise the notes. *)
Theorem csv_row_reads_back (Number_toString : Q -> string)
    (t : Transaction.t) :
  let after_notes := "," ++ quoted (Transaction.sourceFile t) in
  let after_description :=
    "," ++ Number_toString (Transaction.amount t)
        ++ "," ++ Transaction.category t
        ++ "," ++ quoted (double_quotes (Transaction.notes t))
        ++ after_notes in
  csv_row Number_toString t
  = Transaction.date t ++ ","
    ++ quoted (double_quotes (Transaction.description t)) ++ after_description
  /\ read_quoted (quoted (double_quotes (Transaction.description t))
                  ++ after_description)
     = Some (Transaction.description t, after_description)
  /\ read_quoted (quoted (double_quotes (Transaction.notes t)) ++ after_notes)
     = Some (Transaction.notes t, after_notes).
Proof.
  intros after_notes after_description.
  split; [| split ].
  - unfold csv_row, csv_fields. rewrite or_empty_id. reflexivity.
  - apply read_quoted_escaped. reflexivity.
  - apply read_quoted_escaped. reflexivity.
Qed.

Lemma has_char_app (c : ascii) (a b : string) :
  has_char c (a ++ b) = has_char c a || has_char c b.
Proof.
  induction a as [| x a IH]; simpl.
  - reflexivity.
  - now rewrite IH, orb_assoc.
Qed.

Lemma split_on_plain (c : ascii) (s : string) :
  has_char c s = false -> split_on c s = [s].
Proof.
  induction s as [| x s IH]; simpl; intro H.
  - reflexivity.
  - apply orb_false_iff in H. destruct H as [H1 H2].
    rewrite H1, (IH H2). reflexivity.
Qed.

Lemma split_on_cut (c : ascii) (a b : string) :
  has_char c a = false ->
  split_on c (a ++ String c b) = a :: split_on c b.
Proof.
  induction a as [| x a IH]; simpl; intro H.
  - now rewrite Ascii.eqb_refl.
  - apply orb_false_iff in H. destruct H as [H1 H2].
    rewrite H1, (IH H2). reflexivity.
Qed.

(** X22. The name of the exported file: with an ISO timestamp [day] then
    [T] then the time, the view [all] gives [batch_statement_day.csv], a
    name [stem.ext] whose stem has no dot gives [stem_statement_day.csv],
    and any other name without a dot is used whole. *)
Theorem download_name_spec (day time : string) :
  has_char "T" day = false ->
  download_name "all" (day ++ "T" ++ time) = "batch_statement_" ++ day ++ ".csv"
  /\ (forall stem ext, has_char "." stem = false ->
        download_name (stem ++ "." ++ ext) (day ++ "T" ++ time)
        = stem ++ "_statement_" ++ day ++ ".csv")
  /\ (forall view, has_char "." view = false -> view <> "all" ->
        download_name view (day ++ "T" ++ time)
        = view ++ "_statement_" ++ day ++ ".csv").
Proof.
  intro Hday.
  assert (Hiso : hd "" (split_on "T" (day ++ "T" ++ time)) = day).
  { change (day ++ "T" ++ time) with (day ++ String "T" time).
    now rewrite split_on_cut. }
  unfold download_name. rewrite Hiso.
  split; [ reflexivity | split ].
  - intros stem ext Hstem.
    assert (Hne : String.eqb (stem ++ "." ++ ext) "all" = false).
    { apply String.eqb_neq. intro Heq.
      assert (H : has_char "." (stem ++ "." ++ ext) = true).
      { rewrite has_char_app. simpl. apply orb_true_r. }
      rewrite Heq in H. discriminate H. }
    rewrite Hne.
    change (stem ++ "." ++ ext) with (stem ++ String "." ext).
    rewrite split_on_cut by exact Hstem. reflexivity.
  - intros view Hview Hne.
    apply String.eqb_neq in Hne. rewrite Hne.
    rewrite split_on_plain by exact Hview. reflexivity.
Qed.

Lemma download_name_spec_witness :
  download_name "jan.2024.pdf" "2024-03-05T10:11:12.000Z"
  = "jan_statement_2024-03-05.csv".
Proof.
  apply (proj1 (proj2 (download_name_spec "2024-03-05" "10:11:12.000Z" eq_refl))
           "jan" "2024.pdf").
  reflexivity.
Defined.

(** X23. [onFileChange] stores the payload of the data URL: for a result
    made of a header, a comma and a payload, neither holding a comma, the
    payload; a result without a comma gives [undefined]. *)
Theorem base64_of_dataURL_spec :
  (forall header payload,
      has_char "," header = false -> has_char "," payload = false ->
      base64_of_dataURL (header ++ "," ++ payload) = Some payload)
  /\ (forall result, has_char "," result = false ->
        base64_of_dataURL result = None).
Proof.
  split.
  - intros header payload Hh Hp. unfold base64_of_dataURL.
    change (header ++ "," ++ payload) with (header ++ String "," payload).
    rewrite split_on_cut by exact Hh.
    rewrite split_on_plain by exact Hp. reflexivity.
  - intros result H. unfold base64_of_dataURL.
    rewrite split_on_plain by exact H. reflexivity.
Qed.

Lemma base64_of_dataURL_spec_witness :
  base64_of_dataURL "data:application/pdf;base64,JVBERi0=" = Some "JVBERi0=".
Proof.
  apply (proj1 base64_of_dataURL_spec "data:application/pdf;base64" "JVBERi0=");
    reflexivity.
Defined.

(** ** The error message *)

Lemma message_or_default_nonempty (err : JsError.t) :
  message_or_default err <> "".
Proof.
  unfold message_or_default.
  destruct (JsError.message err) as [[| c m] |]; discriminate.
Qed.

(** X24. A failed run always leaves a non-empty error message, also when
    the exception carries no message or an empty one, so the error panel,
    which is rendered for a truthy [error], is shown. *)
Theorem failed_run_shows_message (env : Env) (s : AppState) (j : nat)
    (f : FileData.t) (err : JsError.t) :
  nth_error (files s) j = Some f ->
  extractTransactions env j [f] = inl err ->
  exists m, error (processStatements env s) = Some m /\ m <> "".
Proof.
  intros Hj Herr.
  assert (Hfail : ~ succeeds env j f).
  { intros [result Hr]. congruence. }
  destruct (processStatements_failure env s j f Hj Hfail)
    as [k [g [first [_ [_ [_ [_ ->]]]]]]].
  exists (message_or_default first).
  split; [ reflexivity | apply message_or_default_nonempty ].
Qed.

Lemma failed_run_shows_message_witness :
  exists m,
    error (processStatements
             (mkEnv (fun _ _ => Throws (JsError.mk None)) (fun _ _ => 0%N))
             (queue ["A.pdf"]))
    = Some m /\ m <> "".
Proof.
  apply (failed_run_shows_message
           (mkEnv (fun _ _ => Throws (JsError.mk None)) (fun _ _ => 0%N))
           (queue ["A.pdf"]) 0 (doc "A.pdf") (JsError.mk None));
    reflexivity.
Defined.

(** * The summary on doubles and an object literal *)

(** ** Doubles *)

Lemma js_finite_value_pos (m : positive) (e : Z) :
  0 < Js.Q_of (S754_finite false m e) /\ Js.Q_of (S754_finite true m e) < 0.
Proof.
  assert (H : 0 < Js.Q_of (S754_finite false m e)).
  { destruct e; reflexivity. }
  split; [ exact H |].
  change (Js.Q_of (S754_finite true m e))
    with (- Js.Q_of (S754_finite false m e)).
  setoid_replace 0 with (- 0) by ring.
  now apply Qopp_lt_compat.
Qed.

(** A finite amount is positive, negative or zero, and the two filters of
    [summary] tell which. *)
Lemma js_sign_cases (x : Js.number) :
  Js.finite x = true ->
  (Js.lt Js.zero x = true /\ Js.lt x Js.zero = false /\ 0 < Js.Q_of x)
  \/ (Js.lt Js.zero x = false /\ Js.lt x Js.zero = true /\ Js.Q_of x < 0)
  \/ (Js.lt Js.zero x = false /\ Js.lt x Js.zero = false /\ Js.Q_of x == 0).
Proof.
  destruct x as [s | s | | s m e]; try discriminate; intros _.
  - right. right. repeat split; reflexivity.
  - destruct (js_finite_value_pos m e) as [Hp Hn].
    destruct s.
    + right. left. repeat split; try reflexivity. exact Hn.
    + left. repeat split; try reflexivity. exact Hp.
Qed.



Lemma js_or_zero_value (x : Js.number) : Js.Q_of (Js.or_zero x) = Js.Q_of x.
Proof.
  destruct x; reflexivity.
Qed.

(** ** Sums without rounding *)

Lemma js_sum_exact_total (xs : list Js.Transaction.t) :
  forall acc : Js.number,
    Js.finite acc = true ->
    Js.sum_exact acc xs ->
    Js.finite (fold_left (fun a t => Js.fadd a (Js.Transaction.amount t)) xs acc)
    = true
    /\ Js.Q_of (fold_left (fun a t => Js.fadd a (Js.Transaction.amount t)) xs acc)
       == Js.Q_of acc + total (Js.amounts xs).
Proof.
  induction xs as [| t xs IH]; intros acc Hfin Hex; simpl.
  - split; [ exact Hfin | ring ].
  - destruct Hex as [[Hf Hq] Hrest].
    destruct (IH _ Hf Hrest) as [H1 H2].
    split; [ exact H1 |]. rewrite H2, Hq. ring.
Qed.

Lemma js_sum_amounts_exact (xs : list Js.Transaction.t) :
  Js.sum_exact Js.zero xs ->
  Js.finite (Js.sum_amounts xs) = true
  /\ Js.Q_of (Js.sum_amounts xs) == total (Js.amounts xs).
Proof.
  intro H. destruct (js_sum_exact_total xs Js.zero eq_refl H) as [H1 H2].
  split; [ exact H1 |]. unfold Js.sum_amounts. rewrite H2. simpl. ring.
Qed.

Lemma js_income_plus_expenses (ts : list Js.Transaction.t) :
  Js.finite_amounts ts ->
  total (Js.amounts (filter Js.is_income ts))
  + total (Js.amounts (filter Js.is_expense ts))
  == total (Js.amounts ts).
Proof.
  induction 1 as [| t ts Ht _ IH]; simpl.
  - reflexivity.
  - destruct (js_sign_cases _ Ht) as [[Hi [He _]] | [[Hi [He _]] | [Hi [He Hz]]]];
      change (Js.is_income t = true) in Hi || change (Js.is_income t = false) in Hi;
      change (Js.is_expense t = true) in He || change (Js.is_expense t = false) in He;
      rewrite Hi, He; simpl; rewrite <- IH.
    + ring.
    + ring.
    + rewrite Hz. ring.
Qed.

(** The two filters of [summary] keep the amounts above and the amounts
    below zero. *)
Lemma js_is_income_positive (t : Js.Transaction.t) :
  Js.is_income t = Js.positive_amount t.
Proof.
  unfold Js.is_income, Js.positive_amount.
  destruct (Js.Transaction.amount t) as [[] | [] | | [] m e]; reflexivity.
Qed.

Lemma js_is_expense_negative (t : Js.Transaction.t) :
  Js.is_expense t = Js.negative_amount t.
Proof.
  unfold Js.is_expense, Js.negative_amount.
  destruct (Js.Transaction.amount t) as [[] | [] | | [] m e]; reflexivity.
Qed.

Lemma js_filter_income (ts : list Js.Transaction.t) :
  filter Js.is_income ts = filter Js.positive_amount ts.
Proof.
  apply filter_ext. exact js_is_income_positive.
Qed.

Lemma js_filter_expense (ts : list Js.Transaction.t) :
  filter Js.is_expense ts = filter Js.negative_amount ts.
Proof.
  apply filter_ext. exact js_is_expense_negative.
Qed.


(** ** The buckets *)

Lemma js_total_replace (k : string) (v v0 : Js.value) (o : JsObject.t Js.value) :
  JsObject.get k o = Some v0 ->
  Js.bucket_total (JsObject.replace k v o) + Js.Q_of (Js.to_number v0)
  == Js.bucket_total o + Js.Q_of (Js.to_number v).
Proof.
  unfold Js.bucket_total.
  induction o as [| [k' v'] r IH]; simpl.
  - discriminate.
  - destruct (String.eqb k k'); simpl.
    + intros [= ->]. ring.
    + intro H. specialize (IH H).
      rewrite <- Qplus_assoc, IH. ring.
Qed.

Lemma js_total_insert_index (n : N) (k : string) (v : Js.value)
    (o : JsObject.t Js.value) :
  Js.bucket_total (JsObject.insert_index n k v o)
  == Js.bucket_total o + Js.Q_of (Js.to_number v).
Proof.
  unfold Js.bucket_total.
  induction o as [| [k' v'] r IH]; simpl.
  - ring.
  - destruct (JsObject.array_index k') as [n' |].
    + destruct (n' <? n)%N; simpl; [ rewrite IH |]; ring.
    + simpl. ring.
Qed.

Lemma js_total_create (k : string) (v : Js.value) (o : JsObject.t Js.value) :
  Js.bucket_total (JsObject.create k v o)
  == Js.bucket_total o + Js.Q_of (Js.to_number v).
Proof.
  unfold JsObject.create.
  destruct (JsObject.array_index k) as [n |].
  - apply js_total_insert_index.
  - unfold Js.bucket_total. rewrite map_app, total_app. simpl. ring.
Qed.

Lemma js_numeric_replace (k : string) (x : Js.number) (o : JsObject.t Js.value) :
  Js.finite x = true ->
  Js.numeric_buckets o ->
  Js.numeric_buckets (JsObject.replace k (Js.VNum x) o).
Proof.
  unfold Js.numeric_buckets. intro Hx.
  induction 1 as [| [k' v'] r Hv Hr IH]; simpl.
  - constructor.
  - destruct (String.eqb k k'); constructor; try assumption.
    now exists x.
Qed.

Lemma js_numeric_insert_index (n : N) (k : string) (x : Js.number)
    (o : JsObject.t Js.value) :
  Js.finite x = true ->
  Js.numeric_buckets o ->
  Js.numeric_buckets (JsObject.insert_index n k (Js.VNum x) o).
Proof.
  unfold Js.numeric_buckets. intro Hx.
  induction 1 as [| [k' v'] r Hv Hr IH]; simpl.
  - constructor; [ now exists x | constructor ].
  - destruct (JsObject.array_index k') as [n' |].
    + destruct (n' <? n)%N.
      * constructor; assumption.
      * constructor; [ now exists x | constructor; assumption ].
    + constructor; [ now exists x | constructor; assumption ].
Qed.

Lemma js_numeric_set (k : string) (x : Js.number) (o : JsObject.t Js.value) :
  Js.finite x = true ->
  Js.numeric_buckets o ->
  Js.numeric_buckets (JsObject.set k (Js.VNum x) o).
Proof.
  intros Hx H. unfold JsObject.set, JsObject.create.
  destruct (JsObject.has k o).
  - now apply js_numeric_replace.
  - destruct (JsObject.array_index k).
    + now apply js_numeric_insert_index.
    + apply Forall_app. split; [ exact H |].
      constructor; [ now exists x | constructor ].
Qed.

Lemma js_numeric_get (k : string) (o : JsObject.t Js.value) (v : Js.value) :
  Js.numeric_buckets o -> JsObject.get k o = Some v ->
  exists x, v = Js.VNum x /\ Js.finite x = true.
Proof.
  induction 1 as [| [k' v'] r Hv Hr IH]; simpl.
  - discriminate.
  - destruct (String.eqb k k').
    + intros [= <-]. exact Hv.
    + exact IH.
Qed.

Lemma js_total_set (k : string) (v : Js.value) (o : JsObject.t Js.value) :
  Js.numeric_buckets o ->
  Js.bucket_total (JsObject.set k v o) + Js.Q_of (Js.current o k)
  == Js.bucket_total o + Js.Q_of (Js.to_number v).
Proof.
  intro Hnum. unfold JsObject.set, JsObject.has, Js.current.
  destruct (JsObject.get k o) as [v0 |] eqn:E.
  - destruct (js_numeric_get k o v0 Hnum E) as [x [-> _]].
    rewrite js_or_zero_value.
    exact (js_total_replace k v (Js.VNum x) o E).
  - rewrite js_total_create. simpl. ring.
Qed.

(** With an ordinary label and numbers in the buckets, the addition to a
    bucket is an assignment of a sum of two numbers. *)
Lemma js_bump_plain_eq (p : Js.number -> string) (o : JsObject.t Js.value)
    (k : string) (a : Js.number) :
  Js.numeric_buckets o -> Js.plain_label k = true ->
  Js.bump p o k a
  = JsObject.set k (Js.VNum (Js.fadd (Js.current o k) a)) o.
Proof.
  intros Hnum Hplain. unfold Js.bump, Js.current.
  destruct (JsObject.get k o) as [v0 |] eqn:E.
  - destruct (js_numeric_get k o v0 Hnum E) as [x [-> _]]. reflexivity.
  - unfold Js.plain_label in Hplain.
    apply andb_true_iff in Hplain. destruct Hplain as [H1 H2].
    apply negb_true_iff in H1. apply negb_true_iff in H2.
    now rewrite H1, H2.
Qed.

(** Adding an amount to a bucket with an ordinary label, without rounding,
    adds it to the total of the buckets and leaves finite numbers in all
    of them. *)
Lemma js_bump_plain (p : Js.number -> string) (o : JsObject.t Js.value)
    (k : string) (a : Js.number) :
  Js.numeric_buckets o -> Js.plain_label k = true ->
  Js.exact_add (Js.current o k) a ->
  Js.numeric_buckets (Js.bump p o k a)
  /\ Js.bucket_total (Js.bump p o k a) == Js.bucket_total o + Js.Q_of a.
Proof.
  intros Hnum Hplain [Hf Hq].
  rewrite (js_bump_plain_eq p o k a Hnum Hplain).
  split; [ now apply js_numeric_set |].
  pose proof (js_total_set k (Js.VNum (Js.fadd (Js.current o k) a)) o Hnum) as H.
  simpl Js.to_number in H. rewrite Hq in H.
  apply (Qplus_inj_r _ _ (Js.Q_of (Js.current o k))). rewrite H. ring.
Qed.

Lemma js_add_to_category_negative (p : Js.number -> string)
    (o : JsObject.t Js.value) (t : Js.Transaction.t) :
  Js.add_to_category p o t
  = if Js.negative_amount t
    then Js.bump p o (Js.Transaction.category t) (SFabs (Js.Transaction.amount t))
    else o.
Proof.
  unfold Js.add_to_category. now rewrite js_is_expense_negative.
Qed.

Lemma js_fold_buckets (p : Js.number -> string) (ts : list Js.Transaction.t) :
  forall o : JsObject.t Js.value,
    Js.numeric_buckets o -> Js.plain_labels ts -> Js.buckets_exact p o ts ->
    Js.numeric_buckets (fold_left (Js.add_to_category p) ts o)
    /\ Js.bucket_total (fold_left (Js.add_to_category p) ts o)
       == Js.bucket_total o + total (Js.magnitudes ts).
Proof.
  unfold Js.magnitudes.
  induction ts as [| t ts IH]; intros o Hnum Hplain Hex; simpl.
  - split; [ exact Hnum | ring ].
  - inversion Hplain as [| t' ts' Ht Hts]; subst.
    destruct Hex as [Hadd Hrest].
    rewrite js_add_to_category_negative in Hrest |- *.
    destruct (Js.negative_amount t) eqn:E.
    + destruct (js_bump_plain p o (Js.Transaction.category t)
                  (SFabs (Js.Transaction.amount t)) Hnum (Ht eq_refl)
                  (Hadd eq_refl)) as [Hnum' Htot].
      destruct (IH _ Hnum' Hts Hrest) as [H1 H2].
      split; [ exact H1 |]. rewrite H2, Htot.
      unfold total. cbn [map fold_right]. ring.
    + exact (IH _ Hnum Hts Hrest).
Qed.

(** ** The list of entries *)

Lemma js_insert_desc_Permutation (x : Js.CategoryDatum.t)
    (l : list Js.CategoryDatum.t) :
  Permutation (Js.insert_desc x l) (x :: l).
Proof.
  induction l as [| y r IH]; simpl.
  - apply Permutation_refl.
  - destruct (Js.lt _ _).
    + rewrite IH. apply perm_swap.
    + apply Permutation_refl.
Qed.

Lemma js_sort_Permutation (l : list Js.CategoryDatum.t) :
  Permutation (Js.sort_by_value_desc l) l.
Proof.
  induction l as [| x l IH]; simpl.
  - apply perm_nil.
  - rewrite js_insert_desc_Permutation. now apply perm_skip.
Qed.

Lemma js_mapi_from_fields (T : Js.number) (es : list (string * Js.value)) :
  forall i : nat,
    map Js.CategoryDatum.name (mapi_from i (Js.to_datum T) es) = map fst es
    /\ map Js.CategoryDatum.value (mapi_from i (Js.to_datum T) es) = map snd es
    /\ map Js.CategoryDatum.percentage (mapi_from i (Js.to_datum T) es)
       = map (fun e => Js.percentage_of T (snd e)) es.
Proof.
  induction es as [| [k v] es IH]; intro i; simpl.
  - repeat split.
  - destruct (IH (S i)) as [H1 [H2 H3]].
    rewrite H1, H2, H3. repeat split.
Qed.

Lemma js_categoryData_Permutation (p : Js.number -> string)
    (ts : list Js.Transaction.t) :
  Permutation (Js.Summary.categoryData (Js.summary p ts))
              (Js.unsorted_categoryData p ts).
Proof.
  apply js_sort_Permutation.
Qed.


(** ** The totals *)

(** C5, as stated, fails on doubles: for the amounts 2^53, 1 and -1 the
    income rounds to 2^53, so [net] is 2^53 - 1 while the amounts add up
    to 2^53. *)
Lemma net_differs_from_sum_after_rounding :
  ~ Js.net_is_arithmetic_sum Js.integer_toString Js.big_then_small.
Proof.
  unfold Js.net_is_arithmetic_sum. vm_compute. intro H. discriminate H.
Qed.

(** C5, amended. When the amounts are finite and no addition of the two
    [reduce] calls nor the final [income + expenses] rounds, [net] is the
    arithmetic sum of all the amounts, zero amounts included; and for the
    empty list [count], [income], [expenses] and [net] are 0 and
    [categoryData] is empty. *)
Theorem net_is_sum_when_exact (p : Js.number -> string)
    (ts : list Js.Transaction.t) :
  Js.finite_amounts ts -> Js.sums_exact ts ->
  Js.net_is_arithmetic_sum p ts
  /\ Js.finite (Js.Summary.net (Js.summary p ts)) = true
  /\ Js.summary p [] = Js.Summary.mk 0 Js.zero Js.zero Js.zero [].
Proof.
  intros Hfin [Hi [He [Hf Hq]]].
  destruct (js_sum_amounts_exact _ Hi) as [_ Hqi].
  destruct (js_sum_amounts_exact _ He) as [_ Hqe].
  unfold Js.net_is_arithmetic_sum, Js.summary. simpl Js.Summary.net.
  rewrite js_filter_income, js_filter_expense.
  split; [| split; [ exact Hf | reflexivity ] ].
  rewrite Hq, Hqi, Hqe.
  rewrite <- js_filter_income, <- js_filter_expense.
  now apply js_income_plus_expenses.
Qed.

Lemma net_is_sum_when_exact_witness :
  Js.Q_of (Js.Summary.net (Js.summary Js.integer_toString Js.food_travel))
  == total (Js.amounts Js.food_travel).
Proof.
  apply (net_is_sum_when_exact Js.integer_toString Js.food_travel).
  - repeat constructor.
  - vm_compute. repeat split; reflexivity.
Defined.




(** ** The percentages *)





(** ** Labels that name members of [Object.prototype] *)

(** C9 fails for an expense labelled [constructor]: the first addition
    appends the amount to the text of the function found on the prototype,
    the bucket holds a string, its percentage is NaN, and [>=] holds
    between the number and the string in neither direction, so the list
    is not in descending order whichever way the two entries end up. *)
Theorem constructor_bucket_is_a_string (p : Js.number -> string) :
  Js.Summary.categoryData (Js.summary p Js.with_constructor)
  = [ Js.CategoryDatum.mk "Food" (Js.VNum (Js.of_Z 15))
        (Js.fmul (Js.fdiv (Js.of_Z 15) (Js.of_Z 20)) Js.hundred) "#4f46e5";
      Js.CategoryDatum.mk "constructor"
        (Js.VStr ("function Object() { [native code] }" ++ p (Js.of_Z 5)))
        S754_nan "#f43f5e" ]
  /\ Js.value_ge
       (Js.VNum (Js.of_Z 15))
       (Js.VStr ("function Object() { [native code] }" ++ p (Js.of_Z 5)))
     = false
  /\ Js.value_ge
       (Js.VStr ("function Object() { [native code] }" ++ p (Js.of_Z 5)))
       (Js.VNum (Js.of_Z 15))
     = false
  /\ ~ Js.sorted_desc p Js.with_constructor.
Proof.
  assert (E : Js.Summary.categoryData (Js.summary p Js.with_constructor)
  = [ Js.CategoryDatum.mk "Food" (Js.VNum (Js.of_Z 15))
        (Js.fmul (Js.fdiv (Js.of_Z 15) (Js.of_Z 20)) Js.hundred) "#4f46e5";
      Js.CategoryDatum.mk "constructor"
        (Js.VStr ("function Object() { [native code] }" ++ p (Js.of_Z 5)))
        S754_nan "#f43f5e" ]).
  { reflexivity. }
  split; [ exact E | split; [ reflexivity | split; [ reflexivity |] ] ].
  intro H. unfold Js.sorted_desc in H. rewrite E in H.
  specialize (H 0%nat _ _ eq_refl eq_refl). discriminate H.
Qed.

(** C10 fails for an expense labelled [__proto__]: the assignment goes to
    the setter inherited from [Object.prototype], which ignores a value
    that is no object, so the expense is counted and no entry is made for
    its label. *)
Theorem proto_label_makes_no_entry (p : Js.number -> string) :
  Js.Summary.categoryData (Js.summary p Js.with_proto) = []
  /\ Js.Summary.expenses (Js.summary p Js.with_proto) = Js.of_Z 5
  /\ ~ Js.names_are_expense_labels p Js.with_proto.
Proof.
  split; [ reflexivity | split; [ reflexivity |] ].
  intros [_ H].
  destruct (proj2 (H "__proto__")) as [].
  exists (Js.sample (-5) "__proto__").
  split; [ now left | split; reflexivity ].
Qed.

(** ** The names of the entries *)

(** An addition to a bucket either meets the label [__proto__], which has
    no bucket, and changes nothing, or assigns to the property. *)
Lemma js_bump_shape (p : Js.number -> string) (o : JsObject.t Js.value)
    (k : string) (a : Js.number) :
  ~ In "__proto__" (JsObject.keys o) ->
  (k = "__proto__" /\ Js.bump p o k a = o)
  \/ (k <> "__proto__" /\ exists v, Js.bump p o k a = JsObject.set k v o).
Proof.
  intro Hinv. unfold Js.bump.
  destruct (JsObject.get k o) as [v |] eqn:E.
  - right. split.
    + intros ->. apply Hinv. apply has_In_keys.
      unfold JsObject.has. now rewrite E.
    + destruct v as [x | [| c r]]; eexists; reflexivity.
  - destruct (String.eqb k "__proto__") eqn:P.
    + left. apply String.eqb_eq in P. now split.
    + right. apply String.eqb_neq in P. split; [ exact P |].
      destruct (existsb (String.eqb k) Js.Object_prototype_functions);
        eexists; reflexivity.
Qed.

Lemma js_fold_keys (p : Js.number -> string) (ts : list Js.Transaction.t) :
  forall o : JsObject.t Js.value,
    ~ In "__proto__" (JsObject.keys o) -> NoDup (JsObject.keys o) ->
    NoDup (JsObject.keys (fold_left (Js.add_to_category p) ts o))
    /\ forall c : string,
         In c (JsObject.keys (fold_left (Js.add_to_category p) ts o))
         <-> In c (JsObject.keys o)
             \/ exists t, In t ts /\ Js.negative_amount t = true
                          /\ Js.Transaction.category t = c
                          /\ c <> "__proto__".
Proof.
  induction ts as [| t ts IH]; intros o Hinv Hnd; simpl.
  - split; [ exact Hnd |]. intro c. split; [ tauto |].
    intros [H | [t [[] _]]]. exact H.
  - rewrite js_add_to_category_negative.
    destruct (Js.negative_amount t) eqn:E.
    + destruct (js_bump_shape p o (Js.Transaction.category t)
                  (SFabs (Js.Transaction.amount t)) Hinv)
        as [[Hk ->] | [Hk [v ->]]].
      * destruct (IH o Hinv Hnd) as [H1 H2]. split; [ exact H1 |].
        intro c. rewrite H2. split.
        -- intros [H | [t' [Ht' Hrest]]]; [ now left |].
           right. exists t'. split; [ now right | exact Hrest ].
        -- intros [H | [t' [[<- | Ht'] [Hn [Hc Hp]]]]].
           ++ now left.
           ++ congruence.
           ++ right. exists t'. tauto.
      * assert (Hinv' : ~ In "__proto__"
                          (JsObject.keys
                             (JsObject.set (Js.Transaction.category t) v o))).
        { rewrite keys_set_In. intros [H | H]; [ congruence | exact (Hinv H) ]. }
        destruct (IH _ Hinv' (keys_set_NoDup _ v o Hnd)) as [H1 H2].
        split; [ exact H1 |].
        intro c. rewrite H2, keys_set_In. split.
        -- intros [[-> | H] | [t' [Ht' Hrest]]].
           ++ right. exists t. split; [ now left |]. tauto.
           ++ now left.
           ++ right. exists t'. split; [ now right | exact Hrest ].
        -- intros [H | [t' [[<- | Ht'] [Hn [Hc Hp]]]]].
           ++ left. now right.
           ++ left. left. now symmetry.
           ++ right. exists t'. tauto.
    + destruct (IH o Hinv Hnd) as [H1 H2]. split; [ exact H1 |].
      intro c. rewrite H2. split.
      * intros [H | [t' [Ht' Hrest]]]; [ now left |].
        right. exists t'. split; [ now right | exact Hrest ].
      * intros [H | [t' [[<- | Ht'] [Hn [Hc Hp]]]]].
        -- now left.
        -- congruence.
        -- right. exists t'. tauto.
Qed.

Lemma js_names_Permutation (p : Js.number -> string)
    (ts : list Js.Transaction.t) :
  Permutation (map Js.CategoryDatum.name
                   (Js.Summary.categoryData (Js.summary p ts)))
              (JsObject.keys (Js.categoryMap p ts)).
Proof.
  rewrite (Permutation_map Js.CategoryDatum.name
             (js_categoryData_Permutation p ts)).
  unfold Js.unsorted_categoryData, mapi.
  rewrite (proj1 (js_mapi_from_fields _ _ 0%nat)).
  apply Permutation_refl.
Qed.

Lemma js_names_spec (p : Js.number -> string) (ts : list Js.Transaction.t) :
  NoDup (map Js.CategoryDatum.name (Js.Summary.categoryData (Js.summary p ts)))
  /\ forall c : string,
       In c (map Js.CategoryDatum.name
                 (Js.Summary.categoryData (Js.summary p ts)))
       <-> exists t, In t ts /\ Js.negative_amount t = true
                     /\ Js.Transaction.category t = c
                     /\ c <> "__proto__".
Proof.
  pose proof (js_names_Permutation p ts) as Hp.
  assert (Hinv : ~ In "__proto__"
                   (JsObject.keys (JsObject.empty : JsObject.t Js.value))).
  { intros []. }
  destruct (js_fold_keys p ts JsObject.empty Hinv (NoDup_nil _)) as [Hnd Hkeys].
  split.
  - exact (Permutation_NoDup (Permutation_sym Hp) Hnd).
  - intro c. split.
    + intro H. apply (Permutation_in _ Hp) in H.
      apply Hkeys in H. destruct H as [[] | H]. exact H.
    + intro H. apply (Permutation_in _ (Permutation_sym Hp)).
      apply Hkeys. now right.
Qed.

(** X25. On doubles and with the prototype of the object literal taken
    into account, the names of the entries are pairwise distinct and are
    the labels, [__proto__] excepted, of the transactions with an amount
    below zero. *)
Theorem names_are_labels_but_proto (p : Js.number -> string)
    (ts : list Js.Transaction.t) :
  NoDup (map Js.CategoryDatum.name (Js.Summary.categoryData (Js.summary p ts)))
  /\ forall c : string,
       In c (map Js.CategoryDatum.name
                 (Js.Summary.categoryData (Js.summary p ts)))
       <-> exists t, In t ts /\ Js.negative_amount t = true
                     /\ Js.Transaction.category t = c
                     /\ c <> "__proto__".
Proof.
  exact (js_names_spec p ts).
Qed.

(** X8. [categoryData] is empty exactly when every transaction with an
    amount below zero is labelled [__proto__]; in particular when no
    amount is below zero. *)
Theorem categoryData_empty_iff_no_bucket (p : Js.number -> string)
    (ts : list Js.Transaction.t) :
  Js.Summary.categoryData (Js.summary p ts) = []
  <-> forall t, In t ts -> Js.negative_amount t = true ->
                Js.Transaction.category t = "__proto__".
Proof.
  destruct (js_names_spec p ts) as [_ Hnames].
  split.
  - intros Hnil t Ht Hneg.
    destruct (string_dec (Js.Transaction.category t) "__proto__") as [E | E];
      [ exact E | exfalso ].
    assert (Hin : In (Js.Transaction.category t)
                     (map Js.CategoryDatum.name
                          (Js.Summary.categoryData (Js.summary p ts)))).
    { apply Hnames. exists t. tauto. }
    rewrite Hnil in Hin. destruct Hin.
  - intro H.
    destruct (Js.Summary.categoryData (Js.summary p ts)) as [| d r];
      [ reflexivity | exfalso ].
    destruct (proj1 (Hnames (Js.CategoryDatum.name d)) (or_introl eq_refl))
      as [t [Ht [Hneg [Hc Hp]]]].
    apply Hp. rewrite <- Hc. now apply H.
Qed.

Lemma categoryData_empty_iff_no_bucket_witness :
  Js.Summary.categoryData (Js.summary Js.integer_toString Js.with_proto) = [].
Proof.
  apply (categoryData_empty_iff_no_bucket Js.integer_toString Js.with_proto).
  intros t [<- | []] _. reflexivity.
Defined.

(** ** The order of the buckets *)

Lemma js_fold_order (p : Js.number -> string) (ts : list Js.Transaction.t) :
  forall (m : JsObject.t Js.value) (seen : list string),
    (forall x, In x seen <-> In x (JsObject.keys m)) ->
    ~ In "__proto__" (JsObject.keys m) ->
    Forall (fun c => JsObject.array_index c = None /\ c <> "__proto__")
           (Js.expense_labels ts) ->
    JsObject.keys (fold_left (Js.add_to_category p) ts m)
    = (JsObject.keys m ++ first_occurrences seen (Js.expense_labels ts))%list.
Proof.
  induction ts as [| t ts IH]; intros m seen Hseen Hinv Hplain.
  - simpl. now rewrite app_nil_r.
  - change (fold_left (Js.add_to_category p) (t :: ts) m)
      with (fold_left (Js.add_to_category p) ts (Js.add_to_category p m t)).
    rewrite js_add_to_category_negative.
    unfold Js.expense_labels in *. simpl in Hplain |- *.
    destruct (Js.negative_amount t) eqn:He; [| now apply IH ].
    simpl in Hplain |- *.
    inversion Hplain as [| c l [Hc Hp] Hrest]; subst.
    destruct (js_bump_shape p m (Js.Transaction.category t)
                (SFabs (Js.Transaction.amount t)) Hinv)
      as [[Hk _] | [_ [v ->]]]; [ congruence |].
    unfold JsObject.set.
    destruct (JsObject.has (Js.Transaction.category t) m) eqn:Hhas.
    + assert (Hex : existsb (String.eqb (Js.Transaction.category t)) seen = true).
      { apply existsb_eqb_In, Hseen, has_In_keys, Hhas. }
      rewrite Hex.
      rewrite (IH _ seen); [ now rewrite keys_replace | | | exact Hrest ].
      * intro x. rewrite keys_replace. apply Hseen.
      * now rewrite keys_replace.
    + assert (Hex : existsb (String.eqb (Js.Transaction.category t)) seen = false).
      { destruct (existsb (String.eqb (Js.Transaction.category t)) seen) eqn:E;
          [| reflexivity ].
        apply existsb_eqb_In, Hseen, has_In_keys in E. congruence. }
      rewrite Hex. unfold JsObject.create. rewrite Hc.
      rewrite (IH _ (Js.Transaction.category t :: seen)); [| | | exact Hrest ].
      * unfold JsObject.keys. rewrite map_app. simpl.
        now rewrite <- app_assoc.
      * intro x. unfold JsObject.keys. rewrite map_app, in_app_iff. simpl.
        rewrite (Hseen x). unfold JsObject.keys. tauto.
      * unfold JsObject.keys. rewrite map_app, in_app_iff. simpl.
        intros [H | [H | []]]; [ exact (Hinv H) | congruence ].
Qed.

(** X9. When no transaction with an amount below zero carries a label that
    is an array index (a canonical decimal numeral) or [__proto__],
    [Object.entries] lists the categories in the order in which they first
    occur on such a transaction; this is the order that fixes the
    colours. *)
Theorem buckets_in_first_occurrence_order (p : Js.number -> string)
    (ts : list Js.Transaction.t) :
  (forall t, In t ts -> Js.negative_amount t = true ->
             JsObject.array_index (Js.Transaction.category t) = None
             /\ Js.Transaction.category t <> "__proto__") ->
  JsObject.keys (Js.categoryMap p ts)
  = first_occurrences [] (Js.expense_labels ts).
Proof.
  intro H. unfold Js.categoryMap.
  rewrite (js_fold_order p ts JsObject.empty []).
  - reflexivity.
  - intro x. simpl. tauto.
  - intros [].
  - apply Forall_forall. intros c Hc.
    apply in_map_iff in Hc. destruct Hc as [t [<- Ht]].
    apply filter_In in Ht. destruct Ht as [H1 H2].
    now apply H.
Qed.

Lemma buckets_in_first_occurrence_order_witness :
  JsObject.keys (Js.categoryMap Js.integer_toString Js.food_travel)
  = ["Food"; "Travel"].
Proof.
  rewrite (buckets_in_first_occurrence_order Js.integer_toString Js.food_travel).
  - reflexivity.
  - intros t Ht _.
    destruct Ht as [<- | [<- | [<- | [<- | []]]]]; split;
      try reflexivity; discriminate.
Defined.

(** ** The value of one bucket *)

Section ObjectLookup.
Context {V : Type}.
Implicit Types (o : JsObject.t V) (k : string) (v : V).

Lemma has_cons_false k k' v' o :
  JsObject.has k ((k', v') :: o) = false ->
  String.eqb k k' = false /\ JsObject.has k o = false.
Proof.
  unfold JsObject.has. simpl.
  destruct (String.eqb k k'); [ discriminate | tauto ].
Qed.

Lemma get_replace_same k v o :
  JsObject.has k o = true -> JsObject.get k (JsObject.replace k v o) = Some v.
Proof.
  unfold JsObject.has.
  induction o as [| [k' v'] r IH]; simpl.
  - discriminate.
  - destruct (String.eqb k k') eqn:E; simpl; rewrite E.
    + reflexivity.
    + exact IH.
Qed.

Lemma get_replace_other k k' v o :
  k' <> k -> JsObject.get k' (JsObject.replace k v o) = JsObject.get k' o.
Proof.
  intro Hne.
  induction o as [| [k0 v0] r IH]; simpl.
  - reflexivity.
  - destruct (String.eqb k k0) eqn:E; simpl.
    + apply String.eqb_eq in E. subst k0.
      apply String.eqb_neq in Hne. now rewrite Hne.
    + now rewrite IH.
Qed.

Lemma get_insert_index_same n k v o :
  JsObject.has k o = false ->
  JsObject.get k (JsObject.insert_index n k v o) = Some v.
Proof.
  induction o as [| [k' v'] r IH]; simpl; intro H.
  - now rewrite String.eqb_refl.
  - apply has_cons_false in H. destruct H as [E H].
    destruct (JsObject.array_index k') as [n' |].
    + destruct (n' <? n)%N; simpl.
      * rewrite E. now apply IH.
      * now rewrite String.eqb_refl.
    + simpl. now rewrite String.eqb_refl.
Qed.

Lemma get_insert_index_other n k k' v o :
  k' <> k ->
  JsObject.get k' (JsObject.insert_index n k v o) = JsObject.get k' o.
Proof.
  intro Hne. apply String.eqb_neq in Hne.
  induction o as [| [k0 v0] r IH]; simpl.
  - now rewrite Hne.
  - destruct (JsObject.array_index k0) as [n' |].
    + destruct (n' <? n)%N; simpl.
      * now rewrite IH.
      * now rewrite Hne.
    + simpl. now rewrite Hne.
Qed.

Lemma get_app_same k v o :
  JsObject.has k o = false -> JsObject.get k (o ++ [(k, v)])%list = Some v.
Proof.
  induction o as [| [k' v'] r IH]; simpl; intro H.
  - now rewrite String.eqb_refl.
  - apply has_cons_false in H. destruct H as [E H].
    rewrite E. now apply IH.
Qed.

Lemma get_app_other k k' v o :
  k' <> k -> JsObject.get k' (o ++ [(k, v)])%list = JsObject.get k' o.
Proof.
  intro Hne. apply String.eqb_neq in Hne.
  induction o as [| [k0 v0] r IH]; simpl.
  - now rewrite Hne.
  - now rewrite IH.
Qed.

(** Reading back what was written, and leaving the other keys alone. *)
Lemma get_set_same k v o : JsObject.get k (JsObject.set k v o) = Some v.
Proof.
  unfold JsObject.set, JsObject.create.
  destruct (JsObject.has k o) eqn:E.
  - now apply get_replace_same.
  - destruct (JsObject.array_index k).
    + now apply get_insert_index_same.
    + now apply get_app_same.
Qed.

Lemma get_set_other k k' v o :
  k' <> k -> JsObject.get k' (JsObject.set k v o) = JsObject.get k' o.
Proof.
  intro Hne. unfold JsObject.set, JsObject.create.
  destruct (JsObject.has k o).
  - now apply get_replace_other.
  - destruct (JsObject.array_index k).
    + now apply get_insert_index_other.
    + now apply get_app_other.
Qed.

Lemma get_of_entry o i k v :
  NoDup (JsObject.keys o) -> nth_error o i = Some (k, v) ->
  JsObject.get k o = Some v.
Proof.
  revert i. induction o as [| [k' v'] r IH]; intros i Hnd Hi.
  - destruct i; discriminate.
  - simpl in Hnd. inversion Hnd as [| x l Hnotin Hnd']; subst.
    destruct i as [| i]; simpl in *.
    + injection Hi as -> ->. now rewrite String.eqb_refl.
    + destruct (String.eqb k k') eqn:E.
      * apply String.eqb_eq in E. subst. exfalso. apply Hnotin.
        apply nth_error_In in Hi.
        change k' with (fst (k', v)). now apply in_map.
      * exact (IH i Hnd' Hi).
Qed.

End ObjectLookup.

(** An exact addition to the bucket [k0] adds the amount to what is read
    under [k0] and leaves what is read under the other labels. *)
Lemma js_current_bump (p : Js.number -> string) (o : JsObject.t Js.value)
    (k0 k : string) (a : Js.number) :
  Js.numeric_buckets o -> Js.plain_label k0 = true ->
  Js.exact_add (Js.current o k0) a ->
  Js.Q_of (Js.current (Js.bump p o k0 a) k)
  == Js.Q_of (Js.current o k) + (if String.eqb k0 k then Js.Q_of a else 0).
Proof.
  intros Hnum Hplain [_ Hq].
  rewrite (js_bump_plain_eq p o k0 a Hnum Hplain).
  destruct (String.eqb k0 k) eqn:E.
  - apply String.eqb_eq in E. subst k.
    unfold Js.current at 1. rewrite get_set_same.
    rewrite js_or_zero_value. exact Hq.
  - apply String.eqb_neq in E.
    unfold Js.current at 1. rewrite get_set_other by congruence.
    fold (Js.current o k). ring.
Qed.

Lemma js_fold_current (p : Js.number -> string) (ts : list Js.Transaction.t)
    (k : string) :
  forall o : JsObject.t Js.value,
    Js.numeric_buckets o -> Js.plain_labels ts -> Js.buckets_exact p o ts ->
    Js.Q_of (Js.current (fold_left (Js.add_to_category p) ts o) k)
    == Js.Q_of (Js.current o k) + total (Js.magnitudes_of k ts).
Proof.
  unfold Js.magnitudes_of.
  induction ts as [| t ts IH]; intros o Hnum Hplain Hex; simpl.
  - ring.
  - inversion Hplain as [| t' ts' Ht Hts]; subst.
    destruct Hex as [Hadd Hrest].
    rewrite js_add_to_category_negative in Hrest |- *.
    destruct (Js.negative_amount t) eqn:E; simpl.
    + destruct (js_bump_plain p o (Js.Transaction.category t)
                  (SFabs (Js.Transaction.amount t)) Hnum (Ht eq_refl)
                  (Hadd eq_refl)) as [Hnum' _].
      rewrite (IH _ Hnum' Hts Hrest).
      rewrite (js_current_bump p o (Js.Transaction.category t) k
                 (SFabs (Js.Transaction.amount t)) Hnum (Ht eq_refl)
                 (Hadd eq_refl)).
      destruct (String.eqb (Js.Transaction.category t) k);
        unfold total; cbn [map fold_right]; ring.
    + exact (IH _ Hnum Hts Hrest).
Qed.

(** X2. When no transaction with a negative amount carries the name of a
    member of [Object.prototype] and no addition to a bucket rounds, the
    value of every entry is a finite number: the sum of the magnitudes of
    the negative amounts that carry the name of the entry. *)
Theorem value_is_category_total_when_exact (p : Js.number -> string)
    (ts : list Js.Transaction.t) (d : Js.CategoryDatum.t) :
  Js.plain_labels ts ->
  Js.buckets_exact p JsObject.empty ts ->
  In d (Js.Summary.categoryData (Js.summary p ts)) ->
  exists x : Js.number,
    Js.CategoryDatum.value d = Js.VNum x
    /\ Js.finite x = true
    /\ Js.Q_of x == total (Js.magnitudes_of (Js.CategoryDatum.name d) ts).
Proof.
  intros Hplain Hbuckets Hd.
  apply (Permutation_in _ (js_categoryData_Permutation p ts)) in Hd.
  unfold Js.unsorted_categoryData, mapi in Hd.
  apply In_mapi_from in Hd. destruct Hd as [j [[k v] [Hj ->]]].
  simpl Js.CategoryDatum.value. simpl Js.CategoryDatum.name.
  destruct (js_fold_buckets p ts JsObject.empty (Forall_nil _) Hplain Hbuckets)
    as [Hnum _].
  assert (Hinv : ~ In "__proto__"
                   (JsObject.keys (JsObject.empty : JsObject.t Js.value))).
  { intros []. }
  destruct (js_fold_keys p ts JsObject.empty Hinv (NoDup_nil _)) as [Hnd _].
  pose proof (get_of_entry _ j k v Hnd Hj) as Hget.
  destruct (js_numeric_get k _ v Hnum Hget) as [x [-> Hfin]].
  exists x. split; [ reflexivity | split; [ exact Hfin |] ].
  pose proof (js_fold_current p ts k JsObject.empty (Forall_nil _)
                Hplain Hbuckets) as H.
  unfold Js.current in H. rewrite Hget in H.
  rewrite js_or_zero_value in H. rewrite H.
  simpl. ring.
Qed.

Lemma value_is_category_total_when_exact_witness :
  exists x : Js.number,
    Js.VNum (Js.of_Z 50) = Js.VNum x
    /\ Js.finite x = true
    /\ Js.Q_of x == total (Js.magnitudes_of "Food" Js.food_travel).
Proof.
  apply (value_is_category_total_when_exact Js.integer_toString Js.food_travel
           (Js.CategoryDatum.mk "Food" (Js.VNum (Js.of_Z 50))
              (Js.fmul (Js.fdiv (Js.of_Z 50) (Js.of_Z 80)) Js.hundred)
              "#4f46e5")).
  - repeat constructor.
  - vm_compute. repeat split; reflexivity.
  - left. reflexivity.
Defined.
